(** * A shallow embedding of the transaction ETL pipeline ([src/main.py])

    The pipeline is [get_transaction_data] -> [clean_data] -> [enrich_data]
    -> [save_to_database], driven by [main].  The embedding has three layers:

    - cell values, Python's [float] and the pandas operations the program
      calls, as pure functions on a [DataFrame] of records;
    - [clean_data], [enrich_data] and the entity projections of
      [save_to_database] as pure functions on batches;
    - a state-and-exception monad over a [world] (object heap, console,
      relational store with one transaction per connection, injected
      faults) in which the same functions are written statement by
      statement, with the aliasing and the [try/except/finally] of the
      source.

    What the program takes from its libraries without the repository
    defining it (how a string is read as a number, how a column of values is
    read as dates, how a number is printed) is a [Variable] of the section,
    so every theorem holds for all of them. *)

From Stdlib Require Import QArith Qcanon Ascii String.
From stdpp Require Import base numbers strings list gmap.

Open Scope string_scope.
Open Scope list_scope.

(* ===================================================================== *)
(** * Values *)
(* ===================================================================== *)

(** A Python [float]: a finite double is the rational it denotes, which is
    exact for the comparisons the program makes ([< 50], [<= 200], [< 0],
    [>= 0]).  Sums are taken on these exact values; rounding is outside the
    model. *)
Inductive float64 :=
| FNum (q : Qc)
| FInf
| FNegInf
| FNaN.

(** A cell of a batch, as the provider's JSON delivers it: [None], a string
    or a number. *)
Inductive value :=
| VNone
| VStr (s : string)
| VNum (x : float64).

#[global] Instance float64_eq_dec : EqDecision float64.
Proof. solve_decision. Defined.
#[global] Instance value_eq_dec : EqDecision value.
Proof. solve_decision. Defined.

Definition Qz (n : Z) : Qc := Qc_of_Z n.
Definition num (n : Z) : value := VNum (FNum (Qz n)).
Definition NaN : value := VNum FNaN.

(** [a < b] on floats; every comparison with NaN is false. *)
Definition flt (a b : float64) : bool :=
  match a, b with
  | FNaN, _ | _, FNaN => false
  | FNegInf, FNegInf => false
  | FNegInf, _ => true
  | _, FNegInf => false
  | FInf, _ => false
  | FNum _, FInf => true
  | FNum x, FNum y => bool_decide (x < y)%Qc
  end.

(** [a <= b] on floats. *)
Definition fle (a b : float64) : bool :=
  match a, b with
  | FNaN, _ | _, FNaN => false
  | FNegInf, _ => true
  | _, FInf => true
  | FInf, _ => false
  | FNum _, FNegInf => false
  | FNum x, FNum y => bool_decide (x ≤ y)%Qc
  end.

Definition fge (a b : float64) : bool := fle b a.
Definition fgt (a b : float64) : bool := flt b a.

(** [a + b] on floats, on exact values. *)
Definition fadd (a b : float64) : float64 :=
  match a, b with
  | FNaN, _ | _, FNaN => FNaN
  | FInf, FNegInf | FNegInf, FInf => FNaN
  | FInf, _ | _, FInf => FInf
  | FNegInf, _ | _, FNegInf => FNegInf
  | FNum x, FNum y => FNum (x + y)%Qc
  end.

(** pandas' [isnull]: [None] and NaN are the missing values. *)
Definition isnull (v : value) : bool :=
  match v with
  | VNone | VNum FNaN => true
  | _ => false
  end.

(** Exceptions the program can meet.  [KeyboardInterrupt] stands for the
    [BaseException]s that [except Exception] does not catch. *)
Inductive exn :=
| ValueError
| TypeError
| KeyError
| AttributeError
| DatabaseError
| KeyboardInterrupt.

#[global] Instance exn_eq_dec : EqDecision exn.
Proof. solve_decision. Defined.

Definition is_Exception (e : exn) : bool :=
  match e with KeyboardInterrupt => false | _ => true end.

Inductive result (A : Type) :=
| Ok (a : A)
| Raise (e : exn).
Arguments Ok {A} a.
Arguments Raise {A} e.

#[global] Instance result_eq_dec {A : Type} `{EqDecision A} :
  EqDecision (result A).
Proof. solve_decision. Defined.

(* ===================================================================== *)
(** * Calendar dates and [strftime('%Y-%m-%d')] *)
(* ===================================================================== *)

Record date := mkdate { year : nat; month : nat; day : nat }.

Definition digit (n : nat) : ascii :=
  ascii_of_nat (48 + n `mod` 10).

(** Zero-padded decimal fields.  A pandas timestamp lies in the years 1677
    to 2262, so four digits write the year in full. *)
Definition digits2 (n : nat) : string :=
  String (digit (n / 10)) (String (digit n) "").
Definition digits4 (n : nat) : string :=
  String (digit (n / 1000)) (String (digit (n / 100)) (digits2 n)).

Definition strftime (d : date) : string :=
  digits4 (year d) +:+ "-" +:+ digits2 (month d) +:+ "-" +:+ digits2 (day d).

Definition is_digit (c : ascii) : bool :=
  let n := nat_of_ascii c in (48 <=? n)%nat && (n <=? 57)%nat.

(** The shape [YYYY-MM-DD]. *)
Definition is_ymd (s : string) : bool :=
  match s with
  | String y1 (String y2 (String y3 (String y4 (String d1
      (String m1 (String m2 (String d2 (String a1 (String a2 ""))))))))) =>
      is_digit y1 && is_digit y2 && is_digit y3 && is_digit y4
      && bool_decide (d1 = "-"%char)
      && is_digit m1 && is_digit m2
      && bool_decide (d2 = "-"%char)
      && is_digit a1 && is_digit a2
  | _ => false
  end.

(* ===================================================================== *)
(** * Batches: the pandas [DataFrame] *)
(* ===================================================================== *)

(** A record maps field names to cells; a batch is its column names, in
    order, and its records, in order.  A field a record does not carry reads
    as NaN, as pandas fills it when it builds the frame. *)
Record DataFrame := mkDataFrame {
  columns : list string;
  rows : list (gmap string value)
}.

#[global] Instance DataFrame_eq_dec : EqDecision DataFrame.
Proof. solve_decision. Defined.

Definition cell (r : gmap string value) (c : string) : value :=
  default NaN (r !! c).

(** [df.empty]: no row or no column. *)
Definition df_empty (df : DataFrame) : bool :=
  bool_decide (columns df = []) || bool_decide (rows df = []).

(** [c in df.columns] *)
Definition has_column (c : string) (df : DataFrame) : bool :=
  bool_decide (c ∈ columns df).

(** [df[c]] *)
Definition column (c : string) (df : DataFrame) : list value :=
  map (λ r, cell r c) (rows df).

(** [df.dropna(subset=cs)]: keep the records with no missing value in [cs]. *)
Definition notnull_on (cs : list string) (r : gmap string value) : bool :=
  forallb (λ c, negb (isnull (cell r c))) cs.

Definition dropna (cs : list string) (df : DataFrame) : DataFrame :=
  mkDataFrame (columns df) (filter (λ r, notnull_on cs r = true) (rows df)).

(** [df[c] = f(df[c])], cell by cell, for a column the frame has. *)
Definition map_column (c : string) (f : value → value) (df : DataFrame)
  : DataFrame :=
  mkDataFrame (columns df) (map (λ r, <[c := f (cell r c)]> r) (rows df)).

(** [df[c] = ...] for a column computed from each record; a new column goes
    last. *)
Definition assign (c : string) (f : gmap string value → value)
    (df : DataFrame) : DataFrame :=
  mkDataFrame
    (if bool_decide (c ∈ columns df) then columns df else columns df ++ [c])
    (map (λ r, <[c := f r]> r) (rows df)).

(** The first occurrence of each key, in order: the scan [duplicated],
    [drop_duplicates] and [unique] make. *)
Fixpoint keep_first {A K : Type} `{EqDecision K} (key : A → K)
    (seen : list K) (l : list A) : list A :=
  match l with
  | [] => []
  | x :: l =>
      if decide (key x ∈ seen) then keep_first key seen l
      else x :: keep_first key (key x :: seen) l
  end.

(** [Series.unique()] *)
Definition unique {A : Type} `{EqDecision A} (l : list A) : list A :=
  keep_first id [] l.

(** What [duplicated] compares: the record's cells on the frame's columns,
    all missing values counting as one. *)
Definition factor (v : value) : value :=
  if isnull v then VNone else v.

Definition row_key (cs : list string) (r : gmap string value) : list value :=
  map (λ c, factor (cell r c)) cs.

(** [df.duplicated().sum()] *)
Definition duplicates_count (df : DataFrame) : nat :=
  length (rows df)
  - length (keep_first (row_key (columns df)) [] (rows df)).

(** [df.drop_duplicates()] *)
Definition drop_duplicates (df : DataFrame) : DataFrame :=
  mkDataFrame (columns df) (keep_first (row_key (columns df)) [] (rows df)).

(** [df[mask]] for a mask computed from each record. *)
Definition df_filter (p : gmap string value → bool) (df : DataFrame)
  : DataFrame :=
  mkDataFrame (columns df) (filter (λ r, p r = true) (rows df)).

(** The float in a numeric cell; NaN for a cell that is not a number. *)
Definition as_float (v : value) : float64 :=
  match v with VNum x => x | _ => FNaN end.

Definition fzero : float64 := FNum (Qz 0).

(** [Series.sum()]: NaN is skipped, the cells are added from the first. *)
Definition series_sum (l : list value) : float64 :=
  foldl fadd fzero
    (filter (λ x, x ≠ FNaN) (map as_float l)).

(** [df.groupby(k)[v].sum().reset_index()]: one pair per key of [k] that is
    not missing, with the sum of [v] over the key's records.  The pairs are
    listed as the keys first appear; the merge below does not depend on
    their order. *)
Definition group_rows (k : string) (key : value) (df : DataFrame)
  : list (gmap string value) :=
  filter (λ r, cell r k = key) (rows df).

Definition groupby_sum (k v : string) (df : DataFrame)
  : list (value * float64) :=
  map (λ key, (key, series_sum (map (λ r, cell r v) (group_rows k key df))))
      (unique (filter (λ x, isnull x = false) (column k df))).

Fixpoint lookup_key (key : value) (t : list (value * float64))
  : option float64 :=
  match t with
  | [] => None
  | (k, s) :: t => if decide (k = key) then Some s else lookup_key key t
  end.

(** [df.merge(t, on=k, how='left')] for a table [t] of pairs [(k, c)] with
    distinct keys: every record of [df] stays, in order, and gains the
    column [c], NaN where its key has no pair.  A column [c] that [df]
    already has is renamed [c_x] and the new one [c_y], as pandas suffixes
    them. *)
Definition merge_left (k c : string) (df : DataFrame)
    (t : list (value * float64)) : DataFrame :=
  let looked r :=
    match lookup_key (cell r k) t with
    | Some s => VNum s
    | None => NaN
    end in
  if bool_decide (c ∈ columns df) then
    mkDataFrame
      (map (λ c', if bool_decide (c' = c) then c +:+ "_x" else c') (columns df)
       ++ [c +:+ "_y"])
      (map (λ r, <[c +:+ "_y" := looked r]>
                   (<[c +:+ "_x" := cell r c]> (delete c r))) (rows df))
  else
    mkDataFrame (columns df ++ [c]) (map (λ r, <[c := looked r]> r) (rows df)).


(** The fields the stages name. *)
Definition transaction_date := "transaction_date".
Definition transaction_amount := "transaction_amount".
Definition customer_id := "customer_id".
Definition amount_category := "amount_category".
Definition total_customer_transactions := "total_customer_transactions".

(* ===================================================================== *)
(** * The relational store *)
(* ===================================================================== *)

(** The six tables of the target schema.  The schema's definition is not
    part of the repository: a lookup row is identified with its natural
    key, and a foreign key of a fact is the key of the row the insert's
    subquery finds, [None] (SQL NULL) when it finds none. *)
Record fact := mkfact {
  f_customer_id : string;
  f_product_id : string;
  f_transaction_date : string;
  f_transaction_amount : float64;
  f_transaction_type : option string;
  f_spend_category : option string;
  f_amount_category : option string
}.

Record tables := mkTables {
  customers : list string;
  products : list (string * string);
  transaction_types : list string;
  spend_categories : list string;
  amount_categories : list (string * (float64 * float64));
  transactions : list fact
}.

Definition empty_tables : tables := mkTables [] [] [] [] [] [].

#[global] Instance fact_eq_dec : EqDecision fact.
Proof. solve_decision. Defined.
#[global] Instance tables_eq_dec : EqDecision tables.
Proof. solve_decision. Defined.

(** The statements [save_to_database] sends, with their arguments. *)
Inductive stmt :=
| InsertCustomer (customer : string)
| InsertProduct (product category : string)
| InsertTransactionType (name : string)
| InsertSpendCategory (name : string)
| InsertAmountCategory (name : string) (min_amt max_amt : float64)
| InsertTransaction (customer product tdate : string) (amount : float64)
    (ttype spend category : string).

(** [INSERT ... ON CONFLICT (key) DO NOTHING] *)
Definition insert_new {A : Type} (key : A → string) (x : A) (t : list A)
  : list A :=
  if bool_decide (key x ∈ map key t) then t else t ++ [x].

(** [(SELECT id FROM t WHERE name = n)] *)
Definition select_id (n : string) (names : list string) : option string :=
  if bool_decide (n ∈ names) then Some n else None.

Definition exec_stmt (s : stmt) (t : tables) : tables :=
  match s with
  | InsertCustomer c =>
      mkTables (insert_new id c (customers t)) (products t)
        (transaction_types t) (spend_categories t) (amount_categories t)
        (transactions t)
  | InsertProduct p cat =>
      mkTables (customers t) (insert_new fst (p, cat) (products t))
        (transaction_types t) (spend_categories t) (amount_categories t)
        (transactions t)
  | InsertTransactionType n =>
      mkTables (customers t) (products t)
        (insert_new id n (transaction_types t)) (spend_categories t)
        (amount_categories t) (transactions t)
  | InsertSpendCategory n =>
      mkTables (customers t) (products t) (transaction_types t)
        (insert_new id n (spend_categories t)) (amount_categories t)
        (transactions t)
  | InsertAmountCategory n lo hi =>
      mkTables (customers t) (products t) (transaction_types t)
        (spend_categories t)
        (insert_new fst (n, (lo, hi)) (amount_categories t))
        (transactions t)
  | InsertTransaction c p d a ty sp cat =>
      mkTables (customers t) (products t) (transaction_types t)
        (spend_categories t) (amount_categories t)
        (transactions t ++
           [mkfact c p d a
              (select_id ty (transaction_types t))
              (select_id sp (spend_categories t))
              (select_id cat (map fst (amount_categories t)))])
  end.

(** A connection: open or closed, and the tables as its open transaction
    sees them, [None] outside a transaction. *)
Record connection := mkConnection {
  is_open : bool;
  txn : option tables
}.

Inductive db_event :=
| EvConnect (c : nat)
| EvExecute (c : nat) (s : stmt)
| EvCommit (c : nat)
| EvRollback (c : nat)
| EvClose (c : nat).

#[global] Instance stmt_eq_dec : EqDecision stmt.
Proof. solve_decision. Defined.
#[global] Instance db_event_eq_dec : EqDecision db_event.
Proof. solve_decision. Defined.

(* ===================================================================== *)
(** * The world the program runs in *)
(* ===================================================================== *)

(** [heap]: the [DataFrame] objects, by address.  [console]: the lines
    printed.  [committed]: the store's committed tables.  [conns]: the
    connections made.  [clock]: the number of calls made to the store so
    far.  [trace]: what was done on the store, in order.  [conn_var]: the
    local variable [conn] of [save_to_database]. *)
Record world := mkWorld {
  heap : gmap nat DataFrame;
  console : list string;
  committed : tables;
  conns : gmap nat connection;
  clock : nat;
  trace : list db_event;
  conn_var : option nat
}.

Definition set_heap (h : gmap nat DataFrame) (w : world) : world :=
  mkWorld h (console w) (committed w) (conns w) (clock w) (trace w)
    (conn_var w).
Definition set_console (c : list string) (w : world) : world :=
  mkWorld (heap w) c (committed w) (conns w) (clock w) (trace w)
    (conn_var w).
Definition set_committed (t : tables) (w : world) : world :=
  mkWorld (heap w) (console w) t (conns w) (clock w) (trace w) (conn_var w).
Definition set_conns (cs : gmap nat connection) (w : world) : world :=
  mkWorld (heap w) (console w) (committed w) cs (clock w) (trace w)
    (conn_var w).
Definition tick (w : world) : world :=
  mkWorld (heap w) (console w) (committed w) (conns w) (S (clock w))
    (trace w) (conn_var w).
Definition log_event (e : db_event) (w : world) : world :=
  mkWorld (heap w) (console w) (committed w) (conns w) (clock w)
    (trace w ++ [e]) (conn_var w).
Definition set_conn_var (c : option nat) (w : world) : world :=
  mkWorld (heap w) (console w) (committed w) (conns w) (clock w) (trace w) c.

Definition initial_world (t : tables) : world :=
  mkWorld ∅ [] t ∅ 0 [] None.

(** Computations: a state monad over the world with exceptions.  The world
    an exception leaves behind is kept. *)
Definition M (A : Type) : Type := world → result A * world.

#[global] Instance M_ret : MRet M := λ A a w, (Ok a, w).
#[global] Instance M_bind : MBind M := λ A B f m w,
  match m w with
  | (Ok a, w') => f a w'
  | (Raise e, w') => (Raise e, w')
  end.

Definition raise {A : Type} (e : exn) : M A := λ w, (Raise e, w).

(** [try: body except Exception as e: handler e] *)
Definition try_except {A : Type} (body : M A) (handler : exn → M A) : M A :=
  λ w,
    match body w with
    | (Raise e, w') =>
        if is_Exception e then handler e w' else (Raise e, w')
    | r => r
    end.

(** [try: body finally: final] *)
Definition try_finally {A : Type} (body : M A) (final : M ()) : M A :=
  λ w,
    match body w with
    | (r, w') =>
        match final w' with
        | (Ok _, w'') => (r, w'')
        | (Raise e, w'') => (Raise e, w'')
        end
    end.

Definition print (s : string) : M () :=
  λ w, (Ok (), set_console (console w ++ [s]) w).

(** A new object. *)
Definition alloc (df : DataFrame) : M nat :=
  λ w, let l := fresh (dom (heap w)) in
       (Ok l, set_heap (<[l := df]> (heap w)) w).

(** Reading the object at an address. *)
Definition load (l : nat) : M DataFrame :=
  λ w, match heap w !! l with
       | Some df => (Ok df, w)
       | None => (Raise AttributeError, w)
       end.

(** Mutating the object at an address in place. *)
Definition update (l : nat) (f : DataFrame → DataFrame) : M () :=
  λ w, match heap w !! l with
       | Some df => (Ok (), set_heap (<[l := f df]> (heap w)) w)
       | None => (Raise AttributeError, w)
       end.

(** [df.copy()] *)
Definition copy (l : nat) : M nat :=
  df ← load l; alloc df.

Definition get_conn_var : M (option nat) := λ w, (Ok (conn_var w), w).
Definition put_conn_var (c : option nat) : M () :=
  λ w, (Ok (), set_conn_var c w).

Fixpoint for_each {A : Type} (f : A → M ()) (l : list A) : M () :=
  match l with
  | [] => mret ()
  | x :: l => f x;; for_each f l
  end.

(** [conn.close()]: the connection is closed and what its transaction had
    not committed is gone. *)
Definition close (c : nat) : M () :=
  λ w, (Ok (),
        log_event (EvClose c)
          (set_conns (<[c := mkConnection false None]> (conns w)) w)).

(** A statement whose lookup row is in the tables already; an insert of a
    fact asks for none. *)
Definition covered (s : stmt) (t : tables) : Prop :=
  match s with
  | InsertCustomer c => c ∈ map id (customers t)
  | InsertProduct p _ => p ∈ map fst (products t)
  | InsertTransactionType n => n ∈ map id (transaction_types t)
  | InsertSpendCategory n => n ∈ map id (spend_categories t)
  | InsertAmountCategory n _ _ => n ∈ map fst (amount_categories t)
  | InsertTransaction _ _ _ _ _ _ _ => True
  end.

(** The fact a statement adds to [transactions], if it adds one. *)
Definition new_fact (t : tables) (s : stmt) : list fact :=
  match s with
  | InsertTransaction c p d a ty sp cat =>
      [mkfact c p d a
         (select_id ty (transaction_types t))
         (select_id sp (spend_categories t))
         (select_id cat (map fst (amount_categories t)))]
  | _ => []
  end.

(* ===================================================================== *)
(** * Readers and printers to run the model with *)
(* ===================================================================== *)

(** The theorems below hold for every reader and printer.  These read and
    print the plain forms, and are what the examples run with. *)

Definition digit_value (c : ascii) : option Z :=
  if is_digit c then Some (Z.of_nat (nat_of_ascii c) - 48)%Z else None.

Fixpoint read_digits (acc : Z) (s : string) : option Z :=
  match s with
  | "" => Some acc
  | String c s =>
      match digit_value c with
      | Some d => read_digits (10 * acc + d)%Z s
      | None => None
      end
  end.

(** A decimal integer, with or without a minus sign. *)
Definition read_decimal (s : string) : option float64 :=
  match s with
  | "" => None
  | String "-" (String c s) =>
      n ← read_digits 0 (String c s); Some (FNum (Qz (- n)))
  | _ => n ← read_digits 0 s; Some (FNum (Qz n))
  end.

(** A string [YYYY-MM-DD]. *)
Definition read_ymd (v : value) : option date :=
  match v with
  | VStr s =>
      if is_ymd s then
        y ← read_digits 0 (substring 0 4 s);
        m ← read_digits 0 (substring 5 2 s);
        d ← read_digits 0 (substring 8 2 s);
        Some (mkdate (Z.to_nat y) (Z.to_nat m) (Z.to_nat d))
      else None
  | _ => None
  end.

Fixpoint show_nat_fuel (fuel n : nat) (acc : string) : string :=
  match fuel with
  | O => acc
  | S fuel =>
      let acc := String (digit n) acc in
      if (n <? 10)%nat then acc else show_nat_fuel fuel (n / 10) acc
  end.

Definition show_Z (n : Z) : string :=
  let s := show_nat_fuel (S (Z.abs_nat n)) (Z.abs_nat n) "" in
  if (n <? 0)%Z then String "-" s else s.

(** A float as numerator and denominator, [n.0] for a whole number. *)
Definition show_float (x : float64) : string :=
  match x with
  | FNum q =>
      if bool_decide (Qden q = 1%positive) then show_Z (Qnum q) +:+ ".0"
      else show_Z (Qnum q) +:+ "/" +:+ show_Z (Zpos (Qden q))
  | FInf => "inf"
  | FNegInf => "-inf"
  | FNaN => "nan"
  end.

Definition no_faults : nat → option exn := λ _, None.

(** A run's fault at one call only. *)
Definition fault_at (n : nat) (e : exn) : nat → option exn :=
  λ k, if bool_decide (k = n) then Some e else None.

(** A record from its fields. *)
Definition record_of (l : list (string * value)) : gmap string value :=
  list_to_map l.

(* ===================================================================== *)
(** * Batches and worlds to run the model on *)
(* ===================================================================== *)

Definition clean_columns : list string :=
  [ "customer_id"; "product_id"; "product_category"; "transaction_date";
    "transaction_amount"; "transaction_type"; "spend_category" ].

(** A transaction of customer [c] on date [d] of amount [a]. *)
Definition transaction (c : string) (d a : value) : gmap string value :=
  record_of
    [ ("customer_id", VStr c); ("product_id", VStr "P1");
      ("product_category", VStr "books"); ("transaction_date", d);
      ("transaction_amount", a); ("transaction_type", VStr "purchase");
      ("spend_category", VStr "leisure") ].

(** Two records of one customer, of amounts 30 and 220. *)
Definition batch_two : DataFrame :=
  mkDataFrame clean_columns
    [ transaction "C1" (VStr "2023-01-05") (num 30);
      transaction "C1" (VStr "2023-01-06") (num 220) ].



(** A batch whose records carry no amount. *)
Definition batch_no_amount : DataFrame :=
  mkDataFrame ["customer_id"; "transaction_date"]
    [ record_of [ ("customer_id", VStr "C1");
                  ("transaction_date", VStr "2023-01-05") ] ].


(** An amount that does not read. *)
Definition batch_bad_amount : DataFrame :=
  mkDataFrame clean_columns
    [ transaction "C1" (VStr "2023-01-05") (VStr "abc") ].

(** What an empty answer of the provider makes: [pd.DataFrame([])]. *)
Definition batch_empty : DataFrame := mkDataFrame [] [].

(** A batch all of whose records are dropped by cleaning. *)
Definition batch_all_negative : DataFrame :=
  mkDataFrame clean_columns
    [ transaction "C1" (VStr "2023-01-05") (num (-5)) ].

(** A world with one batch, at address 0, and an empty store. *)
Definition world_with (df : DataFrame) : world :=
  mkWorld {[ 0%nat := df ]} [] empty_tables ∅ 0 [] None.

(** The scenario of the specification: a record of amount -5, a record
    without a date, and one valid record twice. *)
Definition batch_scenario : DataFrame :=
  mkDataFrame clean_columns
    [ transaction "C1" (VStr "2023-01-05") (num (-5));
      transaction "C2" VNone (num 40);
      transaction "C3" (VStr "2023-01-07") (num 75);
      transaction "C3" (VStr "2023-01-07") (num 75) ].

(** An enriched record of customer [c], of amount [a] in the band [cat]. *)
Definition enriched_transaction (c : string) (d a : value) (cat : string)
    (total : value) : gmap string value :=
  <[ "total_customer_transactions" := total ]>
    (<[ "amount_category" := VStr cat ]> (transaction c d a)).

(** The enriched batch of [batch_two]. *)
Definition batch_enriched : DataFrame :=
  mkDataFrame
    (clean_columns ++ ["amount_category"; "total_customer_transactions"])
    [ enriched_transaction "C1" (VStr "2023-01-05") (num 30) "low" (num 250);
      enriched_transaction "C1" (VStr "2023-01-06") (num 220) "high"
        (num 250) ].

(** A batch with amounts and no customers. *)
Definition batch_no_customer : DataFrame :=
  mkDataFrame ["transaction_date"; "transaction_amount"]
    [ record_of [ ("transaction_date", VStr "2023-01-05");
                  ("transaction_amount", num 30) ] ].

(** A store that knows product [P1] as a toy, and the enriched batch, in
    which it is a book, about to be written. *)
Definition tables_one_product : tables :=
  mkTables [] [("P1", "toys")] [] [] [] [].

Definition world_one_product : world :=
  mkWorld {[ 0%nat := batch_enriched ]} [] tables_one_product ∅ 0 [] None.

(* ===================================================================== *)
(** * The transform stages *)
(* ===================================================================== *)

Section Pipeline.

(** Python's [float(s)] on a string: [None] is [ValueError]. *)
Variable float_of_string : string → option float64.
(** How [pd.to_numeric] reads a string: [None] is a string it cannot
    read. *)
Variable numeric_of_string : string → option float64.
(** How [pd.to_datetime] reads a cell that is not missing: [None] is a
    cell it raises on. *)
Variable to_datetime : value → option date.
(** Python's [str(x)] on a float. *)
Variable float_repr : float64 → string.

(** [float(v)] *)
Definition py_float (v : value) : result float64 :=
  match v with
  | VNone => Raise TypeError
  | VStr s =>
      match float_of_string s with
      | Some x => Ok x
      | None => Raise ValueError
      end
  | VNum x => Ok x
  end.

(** [str(v)] *)
Definition py_str (v : value) : string :=
  match v with
  | VNone => "None"
  | VStr s => s
  | VNum x => float_repr x
  end.

(** [pd.to_numeric(..., errors='coerce')], cell by cell. *)
Definition to_numeric (v : value) : value :=
  match v with
  | VNone => NaN
  | VStr s =>
      match numeric_of_string s with
      | Some x => VNum x
      | None => NaN
      end
  | VNum x => VNum x
  end.

(** [categorize_amount], nested in [enrich_data].  [float] raises nothing
    but [ValueError] and [TypeError], which the [except] clause names. *)
Definition categorize_amount (amount : value) : string :=
  match py_float amount with
  | Ok amount =>
      if flt amount (FNum (Qz 50)) then "low"
      else if fle amount (FNum (Qz 200)) then "medium"
      else "high"
  | Raise _ => "unknown"
  end.

(** Lines 63-64 of [clean_data]: the column read as dates and written
    back as [%Y-%m-%d] strings; [None] when [pd.to_datetime] raises. *)
Definition dates_to_strings (df : DataFrame) : option DataFrame :=
  rs ← mapM (λ r, d ← to_datetime (cell r transaction_date);
                  Some (<[transaction_date := VStr (strftime d)]> r))
            (rows df);
  Some (mkDataFrame (columns df) rs).

(** The [try ... except Exception] around the date conversion: on an
    exception the frame is as it was. *)
Definition standardize_dates (df : DataFrame) : DataFrame :=
  default df (dates_to_strings df).

(** [clean_df['transaction_amount'] >= 0] *)
Definition amount_non_negative (r : gmap string value) : bool :=
  fge (as_float (cell r transaction_amount)) fzero.

(** [clean_data], as a function of the batch.  [None] is the [None] it
    returns for no data. *)
Definition clean_data (df : option DataFrame) : option DataFrame :=
  match df with
  | None => None
  | Some df =>
      if df_empty df then None
      else
        let clean_df := df in
        let available_columns := columns clean_df in
        let critical_columns :=
          filter (λ col, col ∈ available_columns) [transaction_date] in
        let clean_df :=
          if bool_decide (critical_columns ≠ [])
          then dropna critical_columns clean_df else clean_df in
        let clean_df :=
          if has_column transaction_date clean_df
          then standardize_dates clean_df else clean_df in
        let clean_df := drop_duplicates clean_df in
        let clean_df :=
          if has_column transaction_amount clean_df then
            let clean_df :=
              map_column transaction_amount to_numeric clean_df in
            df_filter amount_non_negative clean_df
          else clean_df in
        Some clean_df
  end.

(** [enrich_data], as a function of the batch.  [groupby('customer_id')]
    raises [KeyError] on a frame without that column. *)
Definition enrich_data (df : option DataFrame)
  : result (option DataFrame) :=
  match df with
  | None => Ok None
  | Some df =>
      if df_empty df then Ok None
      else
        let enriched_df := df in
        if has_column transaction_amount enriched_df then
          let enriched_df :=
            map_column transaction_amount to_numeric enriched_df in
          let enriched_df :=
            assign amount_category
              (λ r, VStr (categorize_amount (cell r transaction_amount)))
              enriched_df in
          if has_column customer_id enriched_df then
            let customer_totals :=
              groupby_sum customer_id transaction_amount enriched_df in
            Ok (Some (merge_left customer_id total_customer_transactions
                        enriched_df customer_totals))
          else Raise KeyError
        else Ok (Some enriched_df)
  end.


(* =================================================================== *)
(** ** The entity sets [save_to_database] derives *)
(* =================================================================== *)

Definition str_columns : list string :=
  [ "customer_id"; "product_id"; "product_category"; "transaction_date";
    "transaction_type"; "spend_category"; "amount_category" ].

Fixpoint floats_of (c : string) (rs : list (gmap string value))
  : result (list (gmap string value)) :=
  match rs with
  | [] => Ok []
  | r :: rs =>
      match py_float (cell r c) with
      | Raise e => Raise e
      | Ok x =>
          match floats_of c rs with
          | Raise e => Raise e
          | Ok rs' => Ok (<[c := VNum x]> r :: rs')
          end
      end
  end.

(** [enriched_df.astype({...})]: [KeyError] when a named column is not in
    the frame; the seven string columns through [str], the amount through
    [float], which may raise. *)
Definition astype (df : DataFrame) : result DataFrame :=
  if forallb (λ c, has_column c df) (transaction_amount :: str_columns)
  then
    let df :=
      foldr (λ c df, map_column c (λ v, VStr (py_str v)) df) df
            str_columns in
    match floats_of transaction_amount (rows df) with
    | Ok rs => Ok (mkDataFrame (columns df) rs)
    | Raise e => Raise e
    end
  else Raise KeyError.

Definition str_of (r : gmap string value) (c : string) : string :=
  py_str (cell r c).

Definition customer_data (df : DataFrame) : list string :=
  map py_str (unique (column "customer_id" df)).

Definition product_data (df : DataFrame) : list (string * string) :=
  map (λ r, (str_of r "product_id", str_of r "product_category"))
      (keep_first (row_key ["product_id"; "product_category"]) []
         (rows df)).

Definition transaction_type_data (df : DataFrame) : list string :=
  map py_str (unique (column "transaction_type" df)).

Definition spend_category_data (df : DataFrame) : list string :=
  map py_str (unique (column "spend_category" df)).

Definition amount_categories_dict : list (string * (float64 * float64)) :=
  [ ("low", (FNum (Qz 0), FNum (Qz 50)));
    ("medium", (FNum (Qz 50), FNum (Qz 200)));
    ("high", (FNum (Qz 200), FNum (Q2Qc (Qmake 99999999 100)))) ].

Definition transaction_data (df : DataFrame) : list stmt :=
  map (λ r,
         InsertTransaction
           (str_of r "customer_id") (str_of r "product_id")
           (str_of r "transaction_date")
           (as_float (cell r "transaction_amount"))
           (str_of r "transaction_type") (str_of r "spend_category")
           (str_of r "amount_category"))
      (rows df).

(* =================================================================== *)
(** ** Calls to the store *)
(* =================================================================== *)

(** The faults of a run: [faults n = Some e] makes the [n]-th call to the
    store raise [e].  Any rejection of a statement by the server, and any
    loss of the connection, is such a fault. *)
Variable faults : nat → option exn.

(** What the provider answers: a batch, or the exception the request
    raises. *)
Variable provider : result DataFrame.

Definition db_call : M () :=
  λ w, match faults (clock w) with
       | Some e => (Raise e, tick w)
       | None => (Ok (), tick w)
       end.

(** [psycopg2.connect(...)] *)
Definition get_db_connection : M nat :=
  db_call;;
  ((λ w, let c := fresh (dom (conns w)) in
       (Ok c,
        log_event (EvConnect c)
          (set_conns (<[c := mkConnection true None]> (conns w)) w))) : M nat).

(** [conn.cursor()] *)
Definition cursor (c : nat) : M nat :=
  db_call;; mret c.

(** [cur.execute(s)]: the first statement on a connection opens its
    transaction on the committed tables. *)
Definition execute (c : nat) (s : stmt) : M () :=
  db_call;;
  ((λ w, match conns w !! c with
       | Some (mkConnection true t) =>
           (Ok (),
            log_event (EvExecute c s)
              (set_conns
                 (<[c := mkConnection true
                           (Some (exec_stmt s (default (committed w) t)))]>
                    (conns w)) w))
       | _ => (Raise DatabaseError, w)
       end) : M ()).

(** [execute_batch(cur, query, argslist)]; the statements are sent one by
    one. *)
Definition execute_batch {A : Type} (c : nat) (query : A → stmt)
    (argslist : list A) : M () :=
  for_each (λ a, execute c (query a)) argslist.

(** [conn.commit()] *)
Definition commit (c : nat) : M () :=
  db_call;;
  ((λ w, match conns w !! c with
       | Some (mkConnection true t) =>
           (Ok (),
            log_event (EvCommit c)
              (set_committed (default (committed w) t)
                 (set_conns (<[c := mkConnection true None]> (conns w))
                    w)))
       | _ => (Raise DatabaseError, w)
       end) : M ()).

(** [conn.rollback()] *)
Definition rollback (c : nat) : M () :=
  db_call;;
  ((λ w, match conns w !! c with
       | Some (mkConnection true t) =>
           (Ok (),
            log_event (EvRollback c)
              (set_conns (<[c := mkConnection true None]> (conns w)) w))
       | _ => (Raise DatabaseError, w)
       end) : M ()).

(* =================================================================== *)
(** ** The program, statement by statement *)
(* =================================================================== *)

Definition get_transaction_data : M (option nat) :=
  try_except
    (match provider with
     | Ok batch =>
         df ← alloc batch;
         print "Available columns:";;
         mret (Some df)
     | Raise e => raise e
     end)
    (λ e, print "Error fetching data";; mret None).

(** [clean_data] on objects: [df.copy()] makes a new object, the
    [inplace=True] calls and the column assignments change [clean_df]
    where it is, [clean_df[mask]] makes a new object. *)
Definition clean_data_prog (df : option nat) : M (option nat) :=
  match df with
  | None => print "No data to clean";; mret None
  | Some df =>
      d ← load df;
      if df_empty d then print "No data to clean";; mret None
      else
        print "=== Data Cleaning Report ===";;
        print "Original row count";;
        clean_df ← copy df;
        print "Missing values before cleaning:";;
        d ← load clean_df;
        let available_columns := columns d in
        let critical_columns :=
          filter (λ col, col ∈ available_columns) [transaction_date] in
        (if bool_decide (critical_columns ≠ [])
         then update clean_df (dropna critical_columns) else mret ());;
        d ← load clean_df;
        (if has_column transaction_date d then
           try_except
             (d ← load clean_df;
              match dates_to_strings d with
              | Some d' => update clean_df (λ _, d')
              | None => raise ValueError
              end)
             (λ e, print "Error converting dates")
         else mret ());;
        update clean_df drop_duplicates;;
        print "Duplicates removed";;
        d ← load clean_df;
        clean_df ←
          (if has_column transaction_amount d then
             update clean_df (map_column transaction_amount to_numeric);;
             d ← load clean_df;
             clean_df ← alloc (df_filter amount_non_negative d);
             print "Negative transactions removed";;
             mret clean_df
           else mret clean_df);
        print "Missing values after cleaning:";;
        print "Final row count";;
        mret (Some clean_df)
  end.

(** [enrich_data] on objects: the column assignments change the copy,
    [merge] makes a new object. *)
Definition enrich_data_prog (df : option nat) : M (option nat) :=
  match df with
  | None => print "No data to enrich";; mret None
  | Some df =>
      d ← load df;
      if df_empty d then print "No data to enrich";; mret None
      else
        enriched_df ← copy df;
        print "=== Enrichment Process ===";;
        d ← load enriched_df;
        enriched_df ←
          (if has_column transaction_amount d then
             update enriched_df
               (map_column transaction_amount to_numeric);;
             update enriched_df
               (assign amount_category
                  (λ r, VStr (categorize_amount
                                (cell r transaction_amount))));;
             print "Amount categories created:";;
             d ← load enriched_df;
             if has_column customer_id d then
               let customer_totals :=
                 groupby_sum customer_id transaction_amount d in
               alloc (merge_left customer_id total_customer_transactions
                        d customer_totals)
             else raise KeyError
           else mret enriched_df);
        print "Columns after enrichment:";;
        mret (Some enriched_df)
  end.

Definition display_data (df : option nat) : M () :=
  match df with
  | None => print "No data to display"
  | Some df =>
      d ← load df;
      if df_empty d then print "No data to display"
      else
        print "=== Enriched Dataset Overview ===";;
        print "=== Sample of Enriched Data ==="
  end.

(** The [try] block of [save_to_database] from the cursor on (lines
    172-266): the six groups of statements, then the commit. *)
Definition save_writes (conn : nat) (enriched_df : DataFrame) : M () :=
  cur ← cursor conn;
  print "=== Starting Database Insert Process ===";;
  execute_batch cur InsertCustomer (customer_data enriched_df);;
  print "Customers data inserted";;
  execute_batch cur (λ p, InsertProduct p.1 p.2)
    (product_data enriched_df);;
  print "Products data inserted";;
  execute_batch cur InsertTransactionType
    (transaction_type_data enriched_df);;
  print "Transaction types inserted";;
  execute_batch cur InsertSpendCategory
    (spend_category_data enriched_df);;
  print "Spend categories inserted";;
  for_each (λ kv, execute cur
                    (InsertAmountCategory kv.1 kv.2.1 kv.2.2))
           amount_categories_dict;;
  print "Amount categories inserted";;
  execute_batch cur id (transaction_data enriched_df);;
  print "Transactions data inserted";;
  commit conn;;
  print "=== Insert Summary ===";;
  print "Database Insert Process Completed Successfully".

(** The [try] block of [save_to_database]: the conversion of the frame
    and the connection (lines 159-171), then the writes. *)
Definition save_body (enriched_df : nat) : M () :=
  d ← load enriched_df;
  enriched_df ← (match astype d with
                 | Ok d' => mret d'
                 | Raise e => raise e
                 end);
  conn ← get_db_connection;
  put_conn_var (Some conn);;
  save_writes conn enriched_df.

(** The [except Exception] clause of [save_to_database]. *)
Definition save_handler (e : exn) : M () :=
  conn ← get_conn_var;
  (match conn with
   | Some c => rollback c
   | None => mret ()
   end);;
  print "Error inserting data";;
  print "DataFrame Info:";;
  print "DataFrame Data Types:".

(** The [finally] clause of [save_to_database]. *)
Definition save_finally : M () :=
  conn ← get_conn_var;
  match conn with
  | Some c => close c;; print "Database connection closed"
  | None => mret ()
  end.

Definition save_to_database (enriched_df : nat) : M () :=
  put_conn_var None;;
  try_finally (try_except (save_body enriched_df) save_handler)
              save_finally.

(** [main].  A connection object is true, so the first test never
    returns. *)
Definition main : M () :=
  _ ← get_db_connection;
  raw_df ← get_transaction_data;
  match raw_df with
  | None => mret ()
  | Some _ =>
      cleaned_df ← clean_data_prog raw_df;
      match cleaned_df with
      | None => mret ()
      | Some _ =>
          enriched_df ← enrich_data_prog cleaned_df;
          match enriched_df with
          | None => mret ()
          | Some e =>
              display_data enriched_df;;
              print "Saving data to database...";;
              save_to_database e;;
              print "Process completed!"
          end
      end
  end.

(* =================================================================== *)
(** ** Notions the properties are stated with *)
(* =================================================================== *)

(** [clean_data] up to and including [drop_duplicates] (lines 46-71). *)
Definition clean_before_amounts (df : DataFrame) : DataFrame :=
  let critical_columns :=
    filter (λ col, col ∈ columns df) [transaction_date] in
  let clean_df :=
    if bool_decide (critical_columns ≠ [])
    then dropna critical_columns df else df in
  let clean_df :=
    if has_column transaction_date clean_df
    then standardize_dates clean_df else clean_df in
  drop_duplicates clean_df.












(** What a transform stage leaves as it was: every object the heap had,
    and all of the store. *)
Definition world_frame (w w' : world) : Prop :=
  heap w ⊆ heap w'
  ∧ committed w' = committed w ∧ conns w' = conns w
  ∧ clock w' = clock w ∧ trace w' = trace w ∧ conn_var w' = conn_var w.

(** The batch a returned reference denotes. *)
Definition deref (w : world) (r : option nat) : option DataFrame :=
  l ← r; heap w !! l.

(** No data: a batch that is absent or empty. *)
Definition no_data (df : option DataFrame) : bool :=
  match df with
  | None => true
  | Some df => df_empty df
  end.

(** A run in which a stage is given no data: the request fails and
    [get_transaction_data] returns [None], or the provider's batch is
    empty, or nothing of it is left after cleaning. *)
Definition run_without_data : Prop :=
  match provider with
  | Raise e => is_Exception e = true
  | Ok batch =>
      no_data (Some batch) = true
      ∨ no_data (clean_data (Some batch)) = true
  end.

(** The statements of one write, in the order [save_to_database] sends
    them: the four entity sets, the three amount bands, the facts. *)
Definition lookup_statements (df : DataFrame) : list stmt :=
  (InsertCustomer <$> customer_data df)
  ++ ((λ p, InsertProduct p.1 p.2) <$> product_data df)
  ++ (InsertTransactionType <$> transaction_type_data df)
  ++ (InsertSpendCategory <$> spend_category_data df)
  ++ ((λ kv, InsertAmountCategory kv.1 kv.2.1 kv.2.2)
        <$> amount_categories_dict).

Definition write_statements (df : DataFrame) : list stmt :=
  lookup_statements df ++ transaction_data df.

(** The tables after a list of statements. *)
Definition run_statements (ss : list stmt) (t : tables) : tables :=
  foldl (λ t s, exec_stmt s t) t ss.

(** The five lookup tables. *)
Definition lookup_tables (t : tables)
  : list string * list (string * string) * list string * list string
    * list (string * (float64 * float64)) :=
  (customers t, products t, transaction_types t, spend_categories t,
   amount_categories t).

(** No lookup table has two rows with one natural key. *)
Definition keys_unique (t : tables) : Prop :=
  NoDup (customers t)
  ∧ NoDup (products t).*1
  ∧ NoDup (transaction_types t)
  ∧ NoDup (spend_categories t)
  ∧ NoDup (amount_categories t).*1.

Definition is_commit (e : db_event) : bool :=
  match e with EvCommit _ => true | _ => false end.

(** The events of a write that commits on connection [c]: connect, the
    statements, one commit after the last of them, close. *)
Definition committed_write (c : nat) (ss : list stmt) : list db_event :=
  EvConnect c :: (EvExecute c <$> ss) ++ [EvCommit c; EvClose c].

(** Hoare triples on computations: from a world where [P] holds, [m]
    ends with a result and a world that [Q] relates. *)
Definition hoare {A : Type} (P : world → Prop) (m : M A)
    (Q : result A → world → Prop) : Prop :=
  ∀ w, P w → Q (m w).1 (m w).2.

(** A write under way on connection [c] since the world [w0], the
    statements [done] executed so far in its transaction. *)
Definition writing (w0 : world) (c : nat) (done : list stmt) (w : world)
  : Prop :=
  conn_var w = Some c
  ∧ heap w = heap w0
  ∧ committed w = committed w0
  ∧ (∃ t, conns w !! c = Some (mkConnection true t)
          ∧ default (committed w0) t = run_statements done (committed w0))
  ∧ trace w = (trace w0 ++ EvConnect c :: (EvExecute c <$> done))%list.

(** A write since [w0] that has not committed: the committed tables are
    those of [w0] and no commit is among its events; and either no
    connection was made and nothing was done on the store, or the
    connection is [c]. *)
Definition uncommitted (w0 : world) (c : nat) (w : world) : Prop :=
  heap w = heap w0
  ∧ committed w = committed w0
  ∧ (∃ evs, trace w = trace w0 ++ evs
            ∧ Forall (λ ev, is_commit ev = false) evs)
  ∧ match conn_var w with
    | None => trace w = trace w0 ∧ conns w = conns w0
    | Some c' => c' = c
    end.

(** A write since [w0] stopped by the fault [e]. *)
Definition write_failed (w0 : world) (c : nat) (e : exn) (w : world)
  : Prop :=
  uncommitted w0 c w ∧ ∃ n, faults n = Some e.

(** A write since [w0] that has committed the statements [ss] on
    connection [c]. *)
Definition write_committed (w0 : world) (c : nat) (ss : list stmt)
    (w : world) : Prop :=
  conn_var w = Some c
  ∧ heap w = heap w0
  ∧ committed w = run_statements ss (committed w0)
  ∧ trace w
    = (trace w0 ++ EvConnect c :: (EvExecute c <$> ss) ++ [EvCommit c])%list.

(** What a step of the write ends with: the write goes on, with the
    statements [done] executed, or a fault has stopped it. *)
Definition step_post {A : Type} (w0 : world) (c : nat) (done : list stmt)
  : result A → world → Prop :=
  λ r w, match r with
         | Ok _ => writing w0 c done w
         | Raise e => write_failed w0 c e w
         end.

(* =================================================================== *)
(** ** Further notions *)
(* =================================================================== *)

(** The names of the three bands of [amount_categories]. *)
Definition band_names : list string := ["low"; "medium"; "high"].

(** The upper bound of the last band. *)
(** The bands in the order of their amounts. *)
Definition band_rank (band : string) : nat :=
  if decide (band = "low") then 0
  else if decide (band = "medium") then 1
  else 2.

Definition max_band_amount : float64 :=
  FNum (Q2Qc (Qmake 99999999 100)).

(** The fields [enrich_data] writes: the amount, the two enrichment
    fields, and the two names [merge] gives when the total is already a
    column. *)
Definition enrichment_fields : list string :=
  [ transaction_amount; amount_category; total_customer_transactions;
    total_customer_transactions +:+ "_x";
    total_customer_transactions +:+ "_y" ].

(** [main] from the fetched batch on (lines 293-308). *)
Definition main_stages (raw_df : option nat) : M () :=
  match raw_df with
  | None => mret ()
  | Some _ =>
      cleaned_df ← clean_data_prog raw_df;
      match cleaned_df with
      | None => mret ()
      | Some _ =>
          enriched_df ← enrich_data_prog cleaned_df;
          match enriched_df with
          | None => mret ()
          | Some e =>
              display_data enriched_df;;
              print "Saving data to database...";;
              save_to_database e;;
              print "Process completed!"
          end
      end
  end.

(** Two worlds that differ in what was printed at most. *)
Definition same_but_console (w w' : world) : Prop :=
  heap w' = heap w ∧ committed w' = committed w ∧ conns w' = conns w
  ∧ clock w' = clock w ∧ trace w' = trace w ∧ conn_var w' = conn_var w.

Definition is_rollback (e : db_event) : bool :=
  match e with EvRollback _ => true | _ => false end.

(** The write holds the connection [c], open, and has rolled nothing
    back since the events [tr]. *)
Definition holding (c : nat) (tr : list db_event) (w : world) : Prop :=
  conn_var w = Some c
  ∧ (∃ t, conns w !! c = Some (mkConnection true t))
  ∧ ∃ evs, trace w = tr ++ evs
           ∧ Forall (λ ev, is_rollback ev = false) evs.

(** What a step of a write that holds [c] ends with: the connection is
    held still, and an exception is the fault of the call made last. *)
Definition step_fault {A : Type} (c : nat) (tr : list db_event)
  : result A → world → Prop :=
  λ r w, holding c tr w
         ∧ match r with
           | Ok _ => True
           | Raise e => ∃ n, clock w = S n ∧ faults n = Some e
           end.

(** A fact whose references are rows of the lookup tables: its customer
    and its product are there, and its transaction type and its spend
    category were found. *)
Definition fact_resolved (t : tables) (f : fact) : Prop :=
  f_customer_id f ∈ customers t
  ∧ f_product_id f ∈ (products t).*1
  ∧ (∃ n, f_transaction_type f = Some n ∧ n ∈ transaction_types t)
  ∧ (∃ n, f_spend_category f = Some n ∧ n ∈ spend_categories t).

(** The fact of a record is the record's, with the band found when the
    record's label is one of the three. *)
Definition fact_of_record (r : gmap string value) (f : fact) : Prop :=
  f_customer_id f = str_of r "customer_id"
  ∧ f_product_id f = str_of r "product_id"
  ∧ f_transaction_date f = str_of r "transaction_date"
  ∧ f_transaction_amount f = as_float (cell r "transaction_amount")
  ∧ f_transaction_type f = Some (str_of r "transaction_type")
  ∧ f_spend_category f = Some (str_of r "spend_category")
  ∧ (str_of r "amount_category" ∈ band_names →
     f_amount_category f = Some (str_of r "amount_category")).

(** Each table of [t] begins the table of [t']: no row of [t] is
    changed, removed or moved. *)
Definition tables_prefix (t t' : tables) : Prop :=
  customers t `prefix_of` customers t'
  ∧ products t `prefix_of` products t'
  ∧ transaction_types t `prefix_of` transaction_types t'
  ∧ spend_categories t `prefix_of` spend_categories t'
  ∧ amount_categories t `prefix_of` amount_categories t'
  ∧ transactions t `prefix_of` transactions t'.

(* =================================================================== *)
(** ** Floats and [categorize_amount] *)
(* =================================================================== *)

Lemma flt_false_fle (a b : float64) :
  a ≠ FNaN → b ≠ FNaN → flt a b = false ↔ fle b a = true.
Proof.
  intros Ha Hb. destruct a, b; simpl; try done.
  rewrite bool_decide_eq_false, bool_decide_eq_true.
  split; [apply Qcnot_lt_le | apply Qcle_not_lt].
Qed.

Lemma fle_false_flt (a b : float64) :
  a ≠ FNaN → b ≠ FNaN → fle a b = false ↔ flt b a = true.
Proof.
  intros Ha Hb. destruct a, b; simpl; try done.
  rewrite bool_decide_eq_false, bool_decide_eq_true.
  split; [apply Qcnot_le_lt | apply Qclt_not_le].
Qed.

Lemma flt_fle_trans (a b c : float64) :
  flt a b = true → fle b c = true → flt a c = true.
Proof.
  destruct a, b, c; simpl; try done.
  rewrite !bool_decide_eq_true. apply Qclt_le_trans.
Qed.

Lemma flt_50_200 : flt (FNum (Qz 50)) (FNum (Qz 200)) = true.
Proof. reflexivity. Qed.

(** On every number, the three bands are exactly as the thresholds say:
    [low] below 50, [medium] from 50 to 200, both included, [high] above
    200. *)
Lemma categorize_amount_number (x : float64) :
  x ≠ FNaN →
  (categorize_amount (VNum x) = "low" ↔ flt x (FNum (Qz 50)) = true)
  ∧ (categorize_amount (VNum x) = "medium" ↔
       fle (FNum (Qz 50)) x = true ∧ fle x (FNum (Qz 200)) = true)
  ∧ (categorize_amount (VNum x) = "high" ↔ fgt x (FNum (Qz 200)) = true)
  ∧ categorize_amount (VNum x) ≠ "unknown".
Proof.
  intros Hx. unfold categorize_amount, fgt, py_float. cbv beta iota.
  destruct (flt x (FNum (Qz 50))) eqn:E1.
  - assert (flt x (FNum (Qz 200)) = true) as E3.
    { eapply flt_fle_trans; [exact E1 | reflexivity]. }
    assert (fle (FNum (Qz 50)) x = false) as E4.
    { apply fle_false_flt; done. }
    assert (flt (FNum (Qz 200)) x = false) as E5.
    { apply flt_false_fle; [done | done |].
      destruct x; simpl in *; try done.
      rewrite bool_decide_eq_true in *. by apply Qclt_le_weak. }
    rewrite E4, E5. repeat split; try done. intros [? _]; done.
  - apply flt_false_fle in E1; [| done | done]. rewrite E1.
    destruct (fle x (FNum (Qz 200))) eqn:E2.
    + assert (flt (FNum (Qz 200)) x = false) as E5.
      { apply flt_false_fle; done. }
      rewrite E5. repeat split; done.
    + apply fle_false_flt in E2; [| done | done]. rewrite E2.
      repeat split; try done. intros [_ ?]; done.
Qed.

(** A value [float] cannot convert is [unknown]. *)
Lemma categorize_amount_unconvertible (v : value) (e : exn) :
  py_float v = Raise e → categorize_amount v = "unknown".
Proof. unfold categorize_amount. by intros ->. Qed.

(** C1 (where the code departs from it): the missing value that
    [pd.to_numeric] puts in place of an amount it cannot read is
    categorized [high], not [unknown], although it is not above 200. *)
Theorem categorize_amount_missing_is_high :
  categorize_amount (to_numeric VNone) = "high"
  ∧ categorize_amount (to_numeric VNone) ≠ "unknown"
  ∧ fgt (as_float (to_numeric VNone)) (FNum (Qz 200)) = false.
Proof. repeat split; done. Qed.

(* =================================================================== *)
(** ** The scan that keeps first occurrences *)
(* =================================================================== *)

Section KeepFirst.
Context {A K : Type} `{EqDecision K} (key : A → K).

Lemma keep_first_elem (seen : list K) (l : list A) (x : A) :
  x ∈ keep_first key seen l → x ∈ l ∧ key x ∉ seen.
Proof.
  revert seen. induction l as [|y l IH]; intros seen; simpl.
  - by intros ?%elem_of_nil.
  - destruct (decide (key y ∈ seen)) as [Hin|Hout].
    + intros [? ?]%IH. split; [by right | done].
    + intros [->|[? Hns]%IH]%elem_of_cons.
      * split; [by left | done].
      * split; [by right |]. intros ?. apply Hns. by right.
Qed.



Lemma keep_first_complete (seen : list K) (l : list A) (x : A) :
  x ∈ l → key x ∉ seen →
  ∃ y, y ∈ keep_first key seen l ∧ key y = key x.
Proof.
  revert seen. induction l as [|y l IH]; intros seen; simpl.
  - by intros ?%elem_of_nil.
  - intros [->|Hin]%elem_of_cons Hns.
    + destruct (decide (key y ∈ seen)); [done |].
      exists y. split; [by left | done].
    + destruct (decide (key y ∈ seen)); [by apply IH |].
      destruct (decide (key x = key y)) as [Heq|Hne].
      * exists y. split; [by left | done].
      * destruct (IH (key y :: seen) Hin) as (z & Hz & Hk).
        { intros [?|?]%elem_of_cons; done. }
        exists z. split; [by right | done].
Qed.

End KeepFirst.

(* =================================================================== *)
(** ** Cells, columns and the frame operations *)
(* =================================================================== *)

Lemma cell_insert (r : gmap string value) (c c' : string) (v : value) :
  cell (<[c := v]> r) c' = if decide (c = c') then v else cell r c'.
Proof.
  unfold cell. destruct (decide (c = c')) as [->|Hne].
  - by rewrite lookup_insert_eq.
  - by rewrite lookup_insert_ne.
Qed.

Lemma cell_insert_eq (r : gmap string value) (c : string) (v : value) :
  cell (<[c := v]> r) c = v.
Proof. rewrite cell_insert. by rewrite decide_True. Qed.

Lemma cell_insert_ne (r : gmap string value) (c c' : string) (v : value) :
  c ≠ c' → cell (<[c := v]> r) c' = cell r c'.
Proof. intros. rewrite cell_insert. by rewrite decide_False. Qed.

Lemma columns_dropna cs df : columns (dropna cs df) = columns df.
Proof. done. Qed.

Lemma columns_drop_duplicates df :
  columns (drop_duplicates df) = columns df.
Proof. done. Qed.

Lemma dates_to_strings_columns df df' :
  dates_to_strings df = Some df' → columns df' = columns df.
Proof.
  unfold dates_to_strings. intros H.
  destruct (mapM _ (rows df)); simplify_eq/=. done.
Qed.

Lemma columns_standardize_dates df :
  columns (standardize_dates df) = columns df.
Proof.
  unfold standardize_dates.
  destruct (dates_to_strings df) eqn:E; [| done].
  simpl. by eapply dates_to_strings_columns.
Qed.



(* =================================================================== *)
(** ** [clean_data] *)
(* =================================================================== *)

Lemma columns_clean_before_amounts df :
  columns (clean_before_amounts df) = columns df.
Proof.
  unfold clean_before_amounts. rewrite columns_drop_duplicates.
  set (d1 := if bool_decide _ then _ else _).
  assert (columns d1 = columns df) as H1.
  { unfold d1. by destruct (bool_decide _). }
  destruct (has_column transaction_date d1);
    [by rewrite columns_standardize_dates | done].
Qed.

Lemma clean_data_unfold df :
  clean_data (Some df) =
    if df_empty df then None
    else
      Some (if has_column transaction_amount df
            then df_filter amount_non_negative
                   (map_column transaction_amount to_numeric
                      (clean_before_amounts df))
            else clean_before_amounts df).
Proof.
  unfold clean_data. destruct (df_empty df); [done |].
  fold (clean_before_amounts df). f_equal.
  unfold has_column at 1. by rewrite columns_clean_before_amounts.
Qed.

Lemma clean_data_returns df :
  df_empty df = false → is_Some (clean_data (Some df)).
Proof. intros H. rewrite clean_data_unfold, H. eauto. Qed.

















(** Stdlib's [map] read as stdpp's [fmap]. *)
Ltac to_fmap :=
  repeat match goal with
         | |- context [map ?f ?l] => change (map f l) with (f <$> l)
         end.

(* =================================================================== *)
(** ** Sums *)
(* =================================================================== *)











(* =================================================================== *)
(** ** [enrich_data] *)
(* =================================================================== *)









(** C9: on a batch without the [transaction_amount] column, [enrich_data]
    returns the batch as it is, with no [amount_category] and no
    [total_customer_transactions] added, and [clean_data] returns what it
    has after [drop_duplicates], the amount coercion and the filter on
    negative amounts left out. *)
Theorem no_amount_column_no_enrichment (df : DataFrame) :
  has_column transaction_amount df = false →
  enrich_data (Some df) = Ok (if df_empty df then None else Some df)
  ∧ clean_data (Some df)
    = (if df_empty df then None else Some (clean_before_amounts df))
  ∧ (∀ out, clean_data (Some df) = Some out →
            columns out = columns df
            ∧ ∀ r, r ∈ rows (clean_before_amounts df) → r ∈ rows out).
Proof.
  intros H. split; [| split].
  - unfold enrich_data. rewrite H. by destruct (df_empty df).
  - by rewrite clean_data_unfold, H.
  - intros out. rewrite clean_data_unfold, H.
    destruct (df_empty df); [done |]. intros [= <-].
    split; [apply columns_clean_before_amounts | done].
Qed.

(* =================================================================== *)
(** ** The transform stages on objects *)
(* =================================================================== *)

Ltac mrun :=
  repeat (progress unfold mbind, mret, M_bind, M_ret, load, update, alloc,
            copy, print, raise, try_except, try_finally, get_conn_var,
            put_conn_var, set_heap, set_console, set_committed,
            set_conns, tick, log_event, set_conn_var);
  cbn [heap console committed conns clock trace conn_var fst snd
       is_Exception].

Lemma fresh_None (h : gmap nat DataFrame) : h !! fresh (dom h) = None.
Proof. apply not_elem_of_dom, is_fresh. Qed.

Lemma fresh_insert_None (h : gmap nat DataFrame) (l : nat)
    (d : DataFrame) :
  h !! fresh (dom (<[l := d]> h)) = None.
Proof.
  pose proof (fresh_None (<[l := d]> h)) as H.
  apply lookup_insert_None in H as [H _]. exact H.
Qed.

Lemma subseteq_insert_fresh (h : gmap nat DataFrame) (d : DataFrame) :
  h ⊆ <[fresh (dom h) := d]> h.
Proof. apply insert_subseteq, fresh_None. Qed.

Lemma subseteq_insert_fresh2 (h : gmap nat DataFrame) (l : nat)
    (d d' : DataFrame) :
  h !! l = None →
  h ⊆ <[fresh (dom (<[l := d]> h)) := d']> (<[l := d]> h).
Proof.
  intros Hl. etrans; [by apply (insert_subseteq h l d) |].
  apply subseteq_insert_fresh.
Qed.

(** The branches of a stage, taken one by one. *)
Ltac stage_paths :=
  repeat (first
    [ rewrite lookup_insert_eq
    | rewrite insert_insert_eq
    | rewrite columns_standardize_dates
    | match goal with
      | H : dates_to_strings _ = Some ?d |- context [columns ?d] =>
          rewrite (dates_to_strings_columns _ _ H)
      end
    | progress cbn [heap console committed conns clock trace conn_var
                    columns rows dropna drop_duplicates map_column assign
                    from_option id is_Exception]
    | match goal with
      | |- context [match dates_to_strings ?d with _ => _ end] =>
          destruct (dates_to_strings d) eqn:?
      | |- context [if ?b then _ else _] =>
          lazymatch b with
          | context [fresh] => fail
          | context [bool_decide] => destruct b eqn:?
          | df_empty _ => destruct b eqn:?
          end
      end ]).

Ltac stage_done :=
  eexists; split; [reflexivity |]; split;
  [ unfold world_frame; cbn [heap console committed conns clock trace
                             conn_var];
    repeat split;
    first [ done | apply subseteq_insert_fresh
          | apply subseteq_insert_fresh2, fresh_None ]
  | cbn [deref heap option_bind mbind option_ret mret];
    rewrite ?lookup_insert_eq;
    repeat split;
    first [ done | apply fresh_None | apply fresh_insert_None
          | apply elem_of_app; right; by left ] ].

(** [clean_data] on objects does what [clean_data] on batches says: the
    batch it returns is a new object that holds the cleaned batch, and
    the heap's objects and the store are as they were. *)
Lemma clean_data_prog_run (l : nat) (df : DataFrame) (w : world) :
  heap w !! l = Some df →
  ∃ r w',
    clean_data_prog (Some l) w = (Ok r, w')
    ∧ world_frame w w'
    ∧ deref w' r = clean_data (Some df)
    ∧ deref w r = None
    ∧ (df_empty df = true →
       r = None ∧ "No data to clean" ∈ console w').
Proof.
  intros Hl. destruct w as [h c t cs k tr cv]. cbn [heap] in Hl.
  unfold clean_data_prog, clean_data, standardize_dates, has_column.
  mrun. rewrite Hl.
  destruct (df_empty df) eqn:He; mrun.
  - eexists _, _. split; [done |]. split; [done |].
    repeat split; try done.
    apply elem_of_app. right. by left.
  - rewrite Hl. mrun.
    pose proof (fresh_None h) as Hl1.
    stage_paths; eexists; stage_done.
Qed.

(** [enrich_data] on objects does what [enrich_data] on batches says. *)
Lemma enrich_data_prog_run (l : nat) (df : DataFrame) (w : world) :
  heap w !! l = Some df →
  ∃ r w',
    enrich_data_prog (Some l) w = (r, w')
    ∧ world_frame w w'
    ∧ match r with
      | Ok r =>
          enrich_data (Some df) = Ok (deref w' r)
          ∧ deref w r = None
          ∧ (df_empty df = true →
             r = None ∧ "No data to enrich" ∈ console w')
      | Raise e => enrich_data (Some df) = Raise e
      end.
Proof.
  intros Hl. destruct w as [h c t cs k tr cv]. cbn [heap] in Hl.
  unfold enrich_data_prog, enrich_data, has_column.
  mrun. rewrite Hl.
  destruct (df_empty df) eqn:He; mrun.
  - eexists _, _. split; [done |]. split; [done |].
    repeat split; try done.
    apply elem_of_app. right. by left.
  - rewrite Hl. mrun.
    pose proof (fresh_None h) as Hl1.
    stage_paths; eexists _, _; (split; [reflexivity |]); split;
      try (unfold world_frame;
           cbn [heap console committed conns clock trace conn_var];
           repeat split;
           first [ done | apply subseteq_insert_fresh
                 | apply subseteq_insert_fresh2, fresh_None ]);
      cbn [deref heap option_bind mbind option_ret mret];
      rewrite ?lookup_insert_eq; repeat split;
      first [ done | apply fresh_None | apply fresh_insert_None ].
Qed.

Lemma stage_dangling (l : nat) (w : world) :
  heap w !! l = None →
  clean_data_prog (Some l) w = (Raise AttributeError, w)
  ∧ enrich_data_prog (Some l) w = (Raise AttributeError, w).
Proof.
  intros Hl. unfold clean_data_prog, enrich_data_prog. mrun.
  by rewrite Hl.
Qed.

Lemma deref_None_fresh (w : world) (r : option nat) (l : nat) :
  deref w r = None → r = Some l → heap w !! l = None.
Proof. by intros H ->. Qed.

(** C10: [clean_data] and [enrich_data] leave their input as it was.
    After either call every object of the heap, the input batch among
    them, holds what it held before, and the batch returned is an object
    that was not there before. *)
Theorem clean_enrich_do_not_mutate (df : option nat) (w : world) :
  heap w ⊆ heap (clean_data_prog df w).2
  ∧ heap w ⊆ heap (enrich_data_prog df w).2
  ∧ (∀ l, (clean_data_prog df w).1 = Ok (Some l) → heap w !! l = None)
  ∧ (∀ l, (enrich_data_prog df w).1 = Ok (Some l) → heap w !! l = None).
Proof.
  destruct df as [l|]; [| by repeat split].
  destruct (heap w !! l) as [d|] eqn:Hl.
  - destruct (clean_data_prog_run l d w Hl)
      as (r & w1 & -> & (Hh1 & _) & _ & Hn1 & _).
    destruct (enrich_data_prog_run l d w Hl)
      as (r2 & w2 & -> & (Hh2 & _) & Hr2).
    repeat split; try done; cbn [fst snd].
    + intros l' [= ->]. exact Hn1.
    + intros l' ->. destruct Hr2 as (_ & Hn2 & _). exact Hn2.
  - destruct (stage_dangling l w Hl) as [-> ->]. by repeat split.
Qed.

(** Given no batch at all, each stage reports it and returns nothing. *)
Lemma stages_report_no_data (w : world) :
  clean_data_prog None w
  = (Ok None, set_console (console w ++ ["No data to clean"])%list w)
  ∧ enrich_data_prog None w
    = (Ok None, set_console (console w ++ ["No data to enrich"])%list w)
  ∧ display_data None w
    = (Ok (), set_console (console w ++ ["No data to display"])%list w).
Proof. done. Qed.

(** An empty batch makes each transform stage report it and return
    nothing. *)
Lemma stages_report_empty (w0 : world) (l : nat) (df : DataFrame) :
  heap w0 !! l = Some df → df_empty df = true →
  (clean_data_prog (Some l) w0).1 = Ok None
  ∧ "No data to clean" ∈ console (clean_data_prog (Some l) w0).2
  ∧ (enrich_data_prog (Some l) w0).1 = Ok None
  ∧ "No data to enrich" ∈ console (enrich_data_prog (Some l) w0).2.
Proof.
  intros Hl He.
  destruct (clean_data_prog_run l df w0 Hl)
    as (r & w1 & -> & _ & _ & _ & Hempty).
  destruct (Hempty He) as [-> Hmsg].
  destruct (enrich_data_prog_run l df w0 Hl) as (r2 & w2 & -> & _ & Hr2).
  destruct r2 as [r2|e2].
  - destruct Hr2 as (_ & _ & Hempty2).
    destruct (Hempty2 He) as [-> Hmsg2]. done.
  - unfold enrich_data in Hr2. by rewrite He in Hr2.
Qed.

(** The batch [enrich_data] hands on is never empty. *)
Lemma enrich_data_nonempty (d e : DataFrame) :
  enrich_data (Some d) = Ok (Some e) → df_empty e = false.
Proof.
  unfold enrich_data. destruct (df_empty d) eqn:He; [done |].
  destruct (has_column transaction_amount d); [| by intros [= <-]].
  destruct (has_column customer_id _); [| done].
  intros [= <-]. unfold df_empty in *.
  apply orb_false_iff in He as [_ Hrows].
  apply bool_decide_eq_false in Hrows.
  destruct d as [cs rs]. cbn [rows] in Hrows.
  destruct rs as [|r rs]; [done |].
  apply orb_false_iff. unfold merge_left, assign, map_column.
  cbn [columns rows].
  destruct (bool_decide (total_customer_transactions ∈ _));
    cbn [columns rows map]; split; apply bool_decide_eq_false;
    try discriminate.
  all: intros H; by apply app_eq_nil in H as [_ ?].
Qed.

(** C7: in a run whose first connection to the store is made and in
    which a stage is given no data, [main] returns without an exception,
    the stages after it are not run, and nothing is done on the store
    beyond that first connection: no statement, no commit, the committed
    tables as they were.  An empty batch from the provider is reported by
    the cleaner, a batch emptied by cleaning by the enricher; each of the
    two, given an empty batch, reports it and returns nothing, and the
    batch the enricher hands to the writer is never empty. *)
Theorem main_halts_without_data (w : world) :
  faults (clock w) = None →
  run_without_data →
  (∃ w',
     main w = (Ok (), w')
     ∧ committed w' = committed w
     ∧ trace w' = trace w ++ [EvConnect (fresh (dom (conns w)))]
     ∧ (∀ batch, provider = Ok batch → df_empty batch = true →
                 "No data to clean" ∈ console w')
     ∧ (∀ batch, provider = Ok batch → df_empty batch = false →
                 "No data to enrich" ∈ console w'))
  ∧ (∀ w0 l df,
       heap w0 !! l = Some df → df_empty df = true →
       (clean_data_prog (Some l) w0).1 = Ok None
       ∧ "No data to clean" ∈ console (clean_data_prog (Some l) w0).2
       ∧ (enrich_data_prog (Some l) w0).1 = Ok None
       ∧ "No data to enrich" ∈ console (enrich_data_prog (Some l) w0).2)
  ∧ (∀ d e, enrich_data (Some d) = Ok (Some e) → df_empty e = false).
Proof.
  intros Hconn Hrun.
  split; [| split; [apply stages_report_empty
                   | apply enrich_data_nonempty]].
  revert Hconn Hrun.
  intros Hconn Hrun. unfold run_without_data in Hrun.
  unfold main, get_db_connection, db_call, get_transaction_data.
  mrun. rewrite Hconn.
  destruct provider as [batch|e]; mrun.
  - set (l := fresh (dom (heap w))).
    match goal with
    | |- context [clean_data_prog (Some l) ?W] => set (w1 := W)
    end.
    assert (heap w1 !! l = Some batch) as Hl by apply lookup_insert_eq.
    destruct (clean_data_prog_run l batch w1 Hl)
      as (r & w2 & -> & (_ & Hc2 & _ & _ & Ht2 & _) & Hr & _ & Hempty).
    destruct (df_empty batch) eqn:He.
    + destruct (Hempty eq_refl) as [-> Hmsg].
      eexists. split; [done |]. rewrite Hc2, Ht2.
      repeat split; try done; intros ? [= <-] ?; congruence.
    + destruct Hrun as [Hrun|Hrun]; [simpl in Hrun; congruence |].
      rewrite <- Hr in Hrun. rewrite clean_data_unfold, He in Hr.
      destruct r as [l'|]; [| done]. simpl in Hr, Hrun.
      destruct (heap w2 !! l') as [out|] eqn:Hl'; [| done].
      destruct (enrich_data_prog_run l' out w2 Hl')
        as (r3 & w3 & -> & (_ & Hc3 & _ & _ & Ht3 & _) & Hr3).
      destruct r3 as [r3|e3].
      * destruct Hr3 as (_ & _ & Hempty3).
        destruct (Hempty3 Hrun) as [-> Hmsg].
        eexists. split; [done |]. rewrite Hc3, Ht3, Hc2, Ht2.
        repeat split; try done; intros ? [= <-] ?; congruence.
      * unfold enrich_data in Hr3. cbn [no_data] in Hrun.
        by rewrite Hrun in Hr3.
  - rewrite Hrun. mrun. eexists. split; [done |].
    repeat split; done.
Qed.

(* =================================================================== *)
(** ** Reasoning on computations *)
(* =================================================================== *)

Lemma hoare_bind {A B : Type} (P : world → Prop) (R : A → world → Prop)
    (Q : result B → world → Prop) (m : M A) (f : A → M B) :
  hoare P m (λ r w, match r with
                    | Ok a => R a w
                    | Raise e => Q (Raise e) w
                    end) →
  (∀ a, hoare (R a) (f a) Q) →
  hoare P (m ≫= f) Q.
Proof.
  intros Hm Hf w HP. specialize (Hm w HP).
  unfold mbind, M_bind. destruct (m w) as [[a|e] w1]; cbn [fst snd] in *.
  - by apply Hf.
  - done.
Qed.

Lemma hoare_ret {A : Type} (P : world → Prop)
    (Q : result A → world → Prop) (a : A) :
  (∀ w, P w → Q (Ok a) w) → hoare P (mret a) Q.
Proof. intros H w HP. by apply H. Qed.

Lemma hoare_pure {A : Type} (φ : Prop) (P : world → Prop) (m : M A)
    (Q : result A → world → Prop) :
  (φ → hoare P m Q) → hoare (λ w, φ ∧ P w) m Q.
Proof. intros H w [Hφ HP]. by apply H. Qed.

(* =================================================================== *)
(** ** The write of [save_to_database] *)
(* =================================================================== *)

Section Write.
Variable w0 : world.
Variable c : nat.

Lemma writing_uncommitted (done : list stmt) (w : world) :
  writing w0 c done w → uncommitted w0 c w.
Proof.
  intros (Hv & Hh & Hc & _ & Ht). unfold uncommitted. rewrite Hv.
  repeat split; try done.
  eexists. split; [exact Ht |].
  constructor; [done |]. apply Forall_fmap, Forall_forall. done.
Qed.

Lemma writing_tick (done : list stmt) (w : world) :
  writing w0 c done w → writing w0 c done (tick w).
Proof. done. Qed.

Lemma db_call_writing (done : list stmt) :
  hoare (writing w0 c done) db_call (step_post w0 c done).
Proof.
  intros w Hw. unfold db_call.
  destruct (faults (clock w)) as [e|] eqn:Hf; cbn [fst snd step_post].
  - split; [by eapply writing_uncommitted, writing_tick | eauto].
  - by apply writing_tick.
Qed.

Lemma print_writing (done : list stmt) (s : string) :
  hoare (writing w0 c done) (print s) (step_post w0 c done).
Proof. intros w Hw. exact Hw. Qed.

Lemma cursor_writing (done : list stmt) :
  hoare (writing w0 c done) (cursor c)
    (λ r w, match r with
            | Ok cur => cur = c ∧ writing w0 c done w
            | Raise e => write_failed w0 c e w
            end).
Proof.
  unfold cursor. eapply hoare_bind; [apply db_call_writing |].
  intros []. by apply hoare_ret.
Qed.

Lemma run_statements_snoc (ss : list stmt) (s : stmt) (t : tables) :
  run_statements (ss ++ [s]) t = exec_stmt s (run_statements ss t).
Proof. unfold run_statements. by rewrite foldl_app. Qed.

Lemma execute_writing (done : list stmt) (s : stmt) :
  hoare (writing w0 c done) (execute c s) (step_post w0 c (done ++ [s])).
Proof.
  unfold execute. eapply hoare_bind; [apply db_call_writing |].
  intros [] w (Hv & Hh & Hc & (t & Ht & Hrun) & Htr).
  rewrite Ht. cbn [fst snd step_post].
  unfold writing, log_event, set_conns.
  cbn [heap console committed conns clock trace conn_var].
  repeat split; try done.
  - eexists. split; [apply lookup_insert_eq |].
    cbn [from_option default id].
    by rewrite run_statements_snoc, <- Hrun, Hc.
  - rewrite Htr, fmap_app, <- !app_assoc. done.
Qed.

Lemma execute_batch_writing {A : Type} (query : A → stmt)
    (argslist : list A) (done : list stmt) :
  hoare (writing w0 c done) (execute_batch c query argslist)
    (step_post w0 c (done ++ (query <$> argslist))).
Proof.
  unfold execute_batch. revert done.
  induction argslist as [|a l IH]; intros done; cbn [for_each].
  - apply hoare_ret. intros w Hw. cbn [step_post].
    by rewrite fmap_nil, app_nil_r.
  - apply (hoare_bind _ (λ _, writing w0 c (done ++ [query a])));
      [apply execute_writing |].
    intros []. specialize (IH (done ++ [query a])).
    by rewrite <- app_assoc in IH.
Qed.

Lemma commit_writing (done : list stmt) :
  hoare (writing w0 c done) (commit c)
    (λ r w, match r with
            | Ok _ => write_committed w0 c done w
            | Raise e => write_failed w0 c e w
            end).
Proof.
  unfold commit. eapply hoare_bind; [apply db_call_writing |].
  intros [] w (Hv & Hh & Hc & (t & Ht & Hrun) & Htr).
  rewrite Ht. cbn [fst snd].
  unfold write_committed, log_event, set_conns, set_committed.
  cbn [heap console committed conns clock trace conn_var].
  repeat split; try done.
  - by rewrite Hc.
  - rewrite Htr, <- !app_assoc. done.
Qed.
End Write.

Lemma hoare_seq_writing {B : Type} (w0 : world) (c : nat)
    (done done' : list stmt) (m : M ()) (k : M B)
    (Q : result B → world → Prop) :
  hoare (writing w0 c done) m (step_post w0 c done') →
  (∀ e w, write_failed w0 c e w → Q (Raise e) w) →
  hoare (writing w0 c done') k Q →
  hoare (writing w0 c done) (m;; k) Q.
Proof.
  intros Hm HQ Hk.
  apply (hoare_bind _ (λ _, writing w0 c done')); [| by intros []].
  intros w Hw. specialize (Hm w Hw). unfold step_post in Hm.
  destruct (m w) as [[[]|e] w1]; cbn [fst snd] in *; [done |].
  by apply HQ.
Qed.

(** The writes end committed, all statements executed and then one
    commit, or stopped by a fault with nothing committed. *)
Lemma save_writes_spec (w0 : world) (c : nat) (d : DataFrame) :
  hoare (writing w0 c []) (save_writes c d)
    (λ r w, match r with
            | Ok _ => write_committed w0 c (write_statements d) w
            | Raise e => write_failed w0 c e w
            end).
Proof.
  unfold save_writes.
  eapply hoare_bind; [apply cursor_writing |].
  intros cur. apply hoare_pure. intros ->.
  eapply hoare_seq_writing; [apply print_writing | done |].
  eapply hoare_seq_writing; [apply execute_batch_writing | done |].
  eapply hoare_seq_writing; [apply print_writing | done |].
  eapply hoare_seq_writing; [apply execute_batch_writing | done |].
  eapply hoare_seq_writing; [apply print_writing | done |].
  eapply hoare_seq_writing; [apply execute_batch_writing | done |].
  eapply hoare_seq_writing; [apply print_writing | done |].
  eapply hoare_seq_writing; [apply execute_batch_writing | done |].
  eapply hoare_seq_writing; [apply print_writing | done |].
  eapply hoare_seq_writing;
    [apply (execute_batch_writing w0 c
              (λ kv, InsertAmountCategory kv.1 kv.2.1 kv.2.2)) | done |].
  eapply hoare_seq_writing; [apply print_writing | done |].
  eapply hoare_seq_writing; [apply execute_batch_writing | done |].
  eapply hoare_seq_writing; [apply print_writing | done |].
  eapply hoare_bind; [apply commit_writing |].
  intros [] w Hw.
  match type of Hw with
  | write_committed _ _ ?ss _ =>
      replace ss with (write_statements d) in Hw
        by (unfold write_statements, lookup_statements;
            rewrite list_fmap_id, <- !app_assoc; done)
  end.
  exact Hw.
Qed.

Lemma uncommitted_refl (w0 : world) (c : nat) :
  conn_var w0 = None → uncommitted w0 c w0.
Proof.
  intros H. unfold uncommitted. rewrite H. repeat split; try done.
  exists []. by rewrite app_nil_r.
Qed.

Lemma uncommitted_tick (w0 w : world) (c : nat) :
  uncommitted w0 c w → uncommitted w0 c (tick w).
Proof. done. Qed.

Lemma writing_connected (w0 : world) :
  conn_var w0 = None →
  writing w0 (fresh (dom (conns w0))) []
    (set_conn_var (Some (fresh (dom (conns w0))))
       (log_event (EvConnect (fresh (dom (conns w0))))
          (set_conns
             (<[fresh (dom (conns w0)) := mkConnection true None]>
                (conns (tick w0)))
             (tick w0)))).
Proof.
  intros H. unfold writing, set_conn_var, log_event, set_conns, tick.
  cbn [heap console committed conns clock trace conn_var].
  repeat split; try done.
  eexists. split; [apply lookup_insert_eq | done].
Qed.

Lemma bind_run {A B : Type} (m : M A) (f : A → M B) (w : world) :
  (m ≫= f) w
  = match m w with
    | (Ok a, w') => f a w'
    | (Raise e, w') => (Raise e, w')
    end.
Proof. reflexivity. Qed.

(** The [try] block up to the writes: it stops on a batch that is not
    there or does not convert, or on a connection that fails, and else
    goes on to the writes with [conn] set. *)
Lemma save_body_prelude (l : nat) (w0 : world) :
  save_body l w0
  = match heap w0 !! l with
    | None => (Raise AttributeError, w0)
    | Some df =>
        match astype df with
        | Raise e => (Raise e, w0)
        | Ok d =>
            match faults (clock w0) with
            | Some e => (Raise e, tick w0)
            | None =>
                save_writes (fresh (dom (conns w0))) d
                  (set_conn_var (Some (fresh (dom (conns w0))))
                     (log_event (EvConnect (fresh (dom (conns w0))))
                        (set_conns
                           (<[fresh (dom (conns w0)) :=
                                mkConnection true None]> (conns w0))
                           (tick w0))))
            end
        end
    end.
Proof.
  unfold save_body.
  rewrite bind_run. unfold load at 1.
  destruct (heap w0 !! l) as [df|]; [| done].
  rewrite bind_run.
  destruct (astype df) as [d|e]; [| done].
  unfold mret at 1, M_ret at 1.
  rewrite bind_run. unfold get_db_connection. rewrite bind_run.
  unfold db_call at 1.
  destruct (faults (clock w0)); [done |].
  rewrite bind_run. unfold put_conn_var at 1. reflexivity.
Qed.

(** The [try] block from a batch that converts, the connection made: it
    ends committed or stopped by a fault. *)
Lemma save_body_run (l : nat) (w0 : world) (df d : DataFrame) :
  conn_var w0 = None →
  heap w0 !! l = Some df →
  astype df = Ok d →
  faults (clock w0) = None →
  match (save_body l w0).1 with
  | Ok _ =>
      write_committed w0 (fresh (dom (conns w0))) (write_statements d)
        (save_body l w0).2
  | Raise e =>
      write_failed w0 (fresh (dom (conns w0))) e (save_body l w0).2
  end.
Proof.
  intros Hv Hl Ha Hf. rewrite save_body_prelude, Hl, Ha, Hf.
  apply (save_writes_spec w0 (fresh (dom (conns w0))) d).
  by apply writing_connected.
Qed.

(** The [try] block in general: it returns only after a commit of all
    the statements of the batch, and an exception leaves the write
    uncommitted. *)
Lemma save_body_outcome (l : nat) (w0 : world) :
  conn_var w0 = None →
  match (save_body l w0).1 with
  | Ok _ =>
      ∃ df d, heap w0 !! l = Some df ∧ astype df = Ok d
              ∧ write_committed w0 (fresh (dom (conns w0)))
                  (write_statements d) (save_body l w0).2
  | Raise e => uncommitted w0 (fresh (dom (conns w0))) (save_body l w0).2
  end.
Proof.
  intros Hv.
  destruct (heap w0 !! l) as [df|] eqn:Hl.
  - destruct (astype df) as [d|e] eqn:Ha.
    + destruct (faults (clock w0)) as [e|] eqn:Hf.
      * rewrite save_body_prelude, Hl, Ha, Hf. cbn [fst snd].
        by apply uncommitted_tick, uncommitted_refl.
      * pose proof (save_body_run l w0 df d Hv Hl Ha Hf) as H.
        destruct (save_body l w0) as [[[]|e] w1]; cbn [fst snd] in *.
        -- by exists df, d.
        -- by destruct H.
    + rewrite save_body_prelude, Hl, Ha. cbn [fst snd].
      by apply uncommitted_refl.
  - rewrite save_body_prelude, Hl. cbn [fst snd].
    by apply uncommitted_refl.
Qed.

(** The [except] clause keeps an uncommitted write uncommitted, whether
    the rollback goes through or not. *)
Lemma save_handler_uncommitted (w0 w1 : world) (c : nat) (e : exn) :
  uncommitted w0 c w1 → uncommitted w0 c (save_handler e w1).2.
Proof.
  intros (Hh & Hc & (evs & Ht & Hevs) & Hv).
  unfold save_handler, get_conn_var, rollback, db_call.
  unfold mbind, M_bind, mret, M_ret, print, set_console, tick,
    log_event, set_conns.
  destruct (conn_var w1) as [c'|] eqn:Hcv; cbn [fst snd].
  - destruct (faults (clock w1)); cbn [fst snd conns].
    + unfold uncommitted.
      cbn [heap console committed conns clock trace conn_var].
      rewrite Hcv. repeat split; eauto.
    + destruct (conns w1 !! c') as [[[] t]|]; cbn [fst snd];
        unfold uncommitted;
        cbn [heap console committed conns clock trace conn_var];
        rewrite Hcv; repeat split; eauto.
      exists (evs ++ [EvRollback c']). rewrite Ht, app_assoc.
      split; [done |]. apply Forall_app. split; [done |].
      by constructor.
  - unfold uncommitted.
    cbn [heap console committed conns clock trace conn_var].
    rewrite Hcv. destruct Hv. repeat split; eauto.
Qed.

(** The [finally] clause closes the connection [conn] holds. *)
Lemma save_finally_run (w1 : world) :
  save_finally w1
  = (Ok (),
     match conn_var w1 with
     | Some c =>
         set_console (console w1 ++ ["Database connection closed"])
           (log_event (EvClose c)
              (set_conns (<[c := mkConnection false None]> (conns w1))
                 w1))
     | None => w1
     end).
Proof.
  unfold save_finally, get_conn_var, close, print.
  unfold mbind, M_bind, mret, M_ret.
  by destruct (conn_var w1).
Qed.

(** [save_to_database] as its three clauses, the [try] block run from
    the world where [conn] is [None]. *)
Lemma save_to_database_unfold (l : nat) (w : world) :
  save_to_database l w
  = let w0 := set_conn_var None w in
    let after_try :=
      match save_body l w0 with
      | (Raise e, w1) =>
          if is_Exception e then save_handler e w1 else (Raise e, w1)
      | r => r
      end in
    (after_try.1, (save_finally after_try.2).2).
Proof.
  unfold save_to_database, try_finally, try_except, put_conn_var.
  unfold mbind at 1, M_bind.
  cbn zeta. destruct (save_body l (set_conn_var None w)) as [[[]|e] w1].
  - cbn [fst snd]. rewrite save_finally_run. reflexivity.
  - destruct (is_Exception e).
    + destruct (save_handler e w1) as [r2 w2]. cbn [fst snd].
      rewrite save_finally_run. reflexivity.
    + cbn [fst snd]. rewrite save_finally_run. reflexivity.
Qed.

(** The world as the [finally] clause finds it. *)
Lemma save_after_try (l : nat) (w : world) :
  let w0 := set_conn_var None w in
  let after_try :=
    match save_body l w0 with
    | (Raise e, w1) =>
        if is_Exception e then save_handler e w1 else (Raise e, w1)
    | r => r
    end in
  match (save_body l w0).1 with
  | Ok _ =>
      after_try.1 = Ok ()
      ∧ ∃ df d, heap w !! l = Some df ∧ astype df = Ok d
                ∧ write_committed w0 (fresh (dom (conns w)))
                    (write_statements d) after_try.2
  | Raise _ => uncommitted w0 (fresh (dom (conns w))) after_try.2
  end.
Proof.
  intros w0 after_try.
  pose proof (save_body_outcome l w0 eq_refl) as H. unfold after_try.
  destruct (save_body l w0) as [[[]|e] w1]; cbn [fst snd] in *.
  - split; [done |]. exact H.
  - destruct (is_Exception e); [| exact H].
    by apply save_handler_uncommitted.
Qed.

(** C4: a write in which a step fails (the [try] block raises) ends with
    the committed tables as they were before it, and no commit among its
    events; a write in which every step succeeds returns, with the
    tables those all statements of the batch give, and its events are the
    connection, the statements in order, the facts last, one commit after
    them, and the close. *)
Theorem save_to_database_atomic (l : nat) (w : world) :
  match (save_body l (set_conn_var None w)).1 with
  | Raise _ =>
      committed (save_to_database l w).2 = committed w
      ∧ ∃ evs, trace (save_to_database l w).2 = trace w ++ evs
               ∧ Forall (λ ev, is_commit ev = false) evs
  | Ok _ =>
      (save_to_database l w).1 = Ok ()
      ∧ ∃ df d,
          heap w !! l = Some df ∧ astype df = Ok d
          ∧ committed (save_to_database l w).2
            = run_statements (write_statements d) (committed w)
          ∧ trace (save_to_database l w).2
            = trace w
              ++ committed_write (fresh (dom (conns w)))
                   (write_statements d)
  end.
Proof.
  rewrite save_to_database_unfold. cbn zeta.
  pose proof (save_after_try l w) as H. cbn zeta in H.
  set (after_try := match save_body l (set_conn_var None w) with
                    | (Raise e, w1) => _
                    | r => r
                    end) in *.
  rewrite save_finally_run. cbn [fst snd].
  destruct ((save_body l (set_conn_var None w)).1) as [[]|e].
  - destruct H as (Hr & df & d & Hl & Ha & Hv & Hh & Hc & Ht).
    split; [done |]. exists df, d. rewrite Hv.
    unfold set_console, log_event, set_conns.
    cbn [heap console committed conns clock trace conn_var].
    repeat split; try done.
    rewrite Ht. unfold committed_write. cbn [trace set_conn_var].
    rewrite <- app_assoc. f_equal. cbn [app]. f_equal.
    by rewrite <- app_assoc.
  - destruct H as (Hh & Hc & (evs & Ht & Hevs) & Hv).
    destruct (conn_var after_try.2) as [c'|].
    + unfold set_console, log_event, set_conns.
      cbn [heap console committed conns clock trace conn_var].
      split; [done |]. exists (evs ++ [EvClose c']).
      rewrite Ht, app_assoc. split; [done |].
      apply Forall_app. split; [done | by constructor].
    + split; [done |]. by exists evs.
Qed.

(** C8: whatever the write does and however it ends, either no
    connection was acquired, and then nothing was done on the store, or
    the connection that was acquired is closed when [save_to_database]
    is left, the close being the last thing done on the store. *)
Theorem save_to_database_closes_connection (l : nat) (w : world) :
  match conn_var (save_to_database l w).2 with
  | Some c =>
      c = fresh (dom (conns w))
      ∧ conns w !! c = None
      ∧ conns (save_to_database l w).2 !! c
        = Some (mkConnection false None)
      ∧ last (trace (save_to_database l w).2) = Some (EvClose c)
  | None =>
      trace (save_to_database l w).2 = trace w
      ∧ conns (save_to_database l w).2 = conns w
  end.
Proof.
  rewrite save_to_database_unfold. cbn zeta.
  pose proof (save_after_try l w) as H. cbn zeta in H.
  set (after_try := match save_body l (set_conn_var None w) with
                    | (Raise e, w1) => _
                    | r => r
                    end) in *.
  rewrite save_finally_run. cbn [fst snd].
  assert (match conn_var after_try.2 with
          | Some c' => c' = fresh (dom (conns w))
          | None => trace after_try.2 = trace w
                    ∧ conns after_try.2 = conns w
          end) as Hv.
  { destruct ((save_body l (set_conn_var None w)).1) as [[]|e].
    - destruct H as (_ & df & d & _ & _ & Hv & _). by rewrite Hv.
    - by destruct H as (_ & _ & _ & Hv). }
  destruct (conn_var after_try.2) as [c'|] eqn:Hcv.
  - unfold set_console, log_event, set_conns.
    cbn [heap console committed conns clock trace conn_var].
    rewrite Hcv. subst c'. repeat split.
    + apply not_elem_of_dom, is_fresh.
    + apply lookup_insert_eq.
    + apply last_snoc.
  - by rewrite Hcv.
Qed.

(* =================================================================== *)
(** ** The tables after a write, and after a second one *)
(* =================================================================== *)

Lemma insert_new_covered {A : Type} (key : A → string) (x : A)
    (t : list A) :
  key x ∈ map key t → insert_new key x t = t.
Proof. intros H. unfold insert_new. by rewrite bool_decide_eq_true_2. Qed.

Lemma insert_new_covers {A : Type} (key : A → string) (x : A)
    (t : list A) :
  key x ∈ map key (insert_new key x t).
Proof.
  unfold insert_new. destruct (bool_decide _) eqn:E.
  - by apply bool_decide_eq_true in E.
  - to_fmap. rewrite fmap_app. apply elem_of_app. right. by left.
Qed.

Lemma insert_new_mono {A : Type} (key : A → string) (x : A)
    (t : list A) (k : string) :
  k ∈ map key t → k ∈ map key (insert_new key x t).
Proof.
  intros H. unfold insert_new. destruct (bool_decide _); [done |].
  to_fmap. rewrite fmap_app. apply elem_of_app. by left.
Qed.

Lemma insert_new_NoDup {A : Type} (key : A → string) (x : A)
    (t : list A) :
  NoDup (key <$> t) → NoDup (key <$> insert_new key x t).
Proof.
  intros H. unfold insert_new. destruct (bool_decide _) eqn:E; [done |].
  apply bool_decide_eq_false in E.
  rewrite fmap_app. apply NoDup_app. split; [done |]. split.
  - intros k Hk [->|?%elem_of_nil]%elem_of_cons; done.
  - apply NoDup_singleton.
Qed.

Lemma exec_covered (s : stmt) (t : tables) :
  covered s t → lookup_tables (exec_stmt s t) = lookup_tables t.
Proof.
  destruct s; simpl; intros H; unfold lookup_tables; simpl;
    rewrite ?insert_new_covered; done.
Qed.

Lemma covered_exec_self (s : stmt) (t : tables) :
  covered s (exec_stmt s t).
Proof.
  destruct s; simpl; try done;
    first [ apply (insert_new_covers id)
          | apply (insert_new_covers fst (_, _)) ].
Qed.

Lemma covered_exec_mono (s s' : stmt) (t : tables) :
  covered s t → covered s (exec_stmt s' t).
Proof.
  destruct s, s'; simpl; try done; intros H;
    first [ by apply (insert_new_mono id)
          | by apply (insert_new_mono fst (_, _)) ].
Qed.

Lemma covered_run_mono (s : stmt) (ss : list stmt) (t : tables) :
  covered s t → covered s (run_statements ss t).
Proof.
  revert t. induction ss as [|s' ss IH]; intros t H; [done |].
  apply IH. by apply covered_exec_mono.
Qed.

(** After a list of statements, each of them is covered. *)
Lemma run_covers (ss : list stmt) (t : tables) :
  Forall (λ s, covered s (run_statements ss t)) ss.
Proof.
  revert t. induction ss as [|s ss IH]; intros t; [constructor |].
  constructor; [| apply (IH (exec_stmt s t))].
  apply (covered_run_mono s ss (exec_stmt s t)), covered_exec_self.
Qed.

(** Statements that are covered leave the lookup tables as they are. *)
Lemma run_covered (ss : list stmt) (t : tables) :
  Forall (λ s, covered s t) ss →
  lookup_tables (run_statements ss t) = lookup_tables t.
Proof.
  revert t. induction ss as [|s ss IH]; intros t H; [done |].
  inversion H as [|? ? Hs Hss]; subst. cbn [run_statements foldl].
  change (lookup_tables (run_statements ss (exec_stmt s t))
          = lookup_tables t).
  rewrite IH; [by apply exec_covered |].
  eapply Forall_impl; [exact Hss |].
  intros s' Hs'. by apply covered_exec_mono.
Qed.

Lemma keys_unique_exec (s : stmt) (t : tables) :
  keys_unique t → keys_unique (exec_stmt s t).
Proof.
  intros (H1 & H2 & H3 & H4 & H5).
  destruct s; unfold keys_unique; simpl; repeat split; try done.
  - rewrite <- (list_fmap_id (insert_new _ _ _)).
    apply insert_new_NoDup. by rewrite list_fmap_id.
  - by apply (insert_new_NoDup fst (_, _)).
  - rewrite <- (list_fmap_id (insert_new _ _ _)).
    apply insert_new_NoDup. by rewrite list_fmap_id.
  - rewrite <- (list_fmap_id (insert_new _ _ _)).
    apply insert_new_NoDup. by rewrite list_fmap_id.
  - by apply (insert_new_NoDup fst (_, _)).
Qed.

Lemma keys_unique_run (ss : list stmt) (t : tables) :
  keys_unique t → keys_unique (run_statements ss t).
Proof.
  revert t. induction ss as [|s ss IH]; intros t H; [done |].
  apply IH. by apply keys_unique_exec.
Qed.

Lemma transactions_exec (s : stmt) (t : tables) :
  transactions (exec_stmt s t) = transactions t ++ new_fact t s.
Proof. destruct s; simpl; by rewrite ?app_nil_r. Qed.

Lemma new_fact_lookup_tables (t t' : tables) (s : stmt) :
  lookup_tables t = lookup_tables t' → new_fact t s = new_fact t' s.
Proof.
  unfold lookup_tables. intros [= H1 H2 H3 H4 H5].
  destruct s; simpl; try done. by rewrite H3, H4, H5.
Qed.

(** The facts covered statements add are those their lookups give in the
    tables they start from. *)
Lemma transactions_run_covered (ss : list stmt) (t : tables) :
  Forall (λ s, covered s t) ss →
  transactions (run_statements ss t)
  = transactions t ++ concat (new_fact t <$> ss).
Proof.
  revert t. induction ss as [|s ss IH]; intros t H.
  - simpl. by rewrite app_nil_r.
  - inversion H as [|? ? Hs Hss]; subst.
    change (transactions (run_statements ss (exec_stmt s t))
            = transactions t ++ concat (new_fact t <$> s :: ss)).
    rewrite IH.
    + rewrite transactions_exec, fmap_cons. cbn [concat].
      rewrite <- app_assoc. do 2 f_equal.
      f_equal. apply list_fmap_ext. intros i s' _.
      apply new_fact_lookup_tables. by apply exec_covered.
    + eapply Forall_impl; [exact Hss |].
      intros s' Hs'. by apply covered_exec_mono.
Qed.

Lemma transactions_run_lookups (ss : list stmt) (t : tables) :
  Forall (λ s, new_fact t s = []) ss →
  (∀ s t t', new_fact t s = [] → new_fact t' s = []) →
  transactions (run_statements ss t) = transactions t.
Proof.
  intros H Hind. revert t H.
  induction ss as [|s ss IH]; intros t H; [done |].
  inversion H as [|? ? Hs Hss]; subst.
  change (transactions (run_statements ss (exec_stmt s t))
          = transactions t).
  rewrite IH.
  - by rewrite transactions_exec, Hs, app_nil_r.
  - eapply Forall_impl; [exact Hss |]. intros s' Hs'.
    exact (Hind s' t _ Hs').
Qed.

Lemma new_fact_nil_any (s : stmt) (t t' : tables) :
  new_fact t s = [] → new_fact t' s = [].
Proof. by destruct s. Qed.

Lemma lookup_statements_no_fact (d : DataFrame) (t : tables) :
  Forall (λ s, new_fact t s = []) (lookup_statements d).
Proof.
  unfold lookup_statements.
  repeat (apply Forall_app; split); apply Forall_fmap, Forall_forall;
    intros ? _; reflexivity.
Qed.

Lemma transaction_data_facts (d : DataFrame) (t : tables) :
  Forall (λ s, covered s t) (transaction_data d)
  ∧ length (concat (new_fact t <$> transaction_data d))
    = length (rows d).
Proof.
  unfold transaction_data. to_fmap. split.
  - apply Forall_fmap, Forall_forall. intros ? _. exact I.
  - rewrite <- list_fmap_compose.
    induction (rows d) as [|r rs IH]; [done |].
    rewrite fmap_cons. cbn [concat]. rewrite length_app, IH. done.
Qed.

Lemma run_statements_app (ss ss' : list stmt) (t : tables) :
  run_statements (ss ++ ss') t
  = run_statements ss' (run_statements ss t).
Proof. unfold run_statements. apply foldl_app. Qed.




(** A write without faults of a batch that converts commits. *)
Lemma save_to_database_commits (l : nat) (w : world) (df d : DataFrame) :
  (∀ n, faults n = None) →
  heap w !! l = Some df →
  astype df = Ok d →
  (save_to_database l w).1 = Ok ()
  ∧ heap (save_to_database l w).2 = heap w
  ∧ committed (save_to_database l w).2
    = run_statements (write_statements d) (committed w)
  ∧ trace (save_to_database l w).2
    = trace w
      ++ committed_write (fresh (dom (conns w))) (write_statements d).
Proof.
  intros Hf Hl Ha.
  pose proof (save_after_try l w) as Haft. cbn zeta in Haft.
  pose proof (save_body_run l (set_conn_var None w) df d eq_refl Hl Ha
                (Hf _)) as Hrun.
  rewrite save_to_database_unfold. cbn zeta.
  set (after_try := match save_body l (set_conn_var None w) with
                    | (Raise e, w1) => _
                    | r => r
                    end) in *.
  rewrite save_finally_run. cbn [fst snd].
  destruct ((save_body l (set_conn_var None w)).1) as [[]|e].
  - destruct Haft as (Hr & df' & d' & Hl' & Ha' & Hv & Hh & Hc & Ht).
    assert (d' = d) as -> by congruence.
    rewrite Hv. unfold set_console, log_event, set_conns.
    cbn [heap console committed conns clock trace conn_var].
    repeat split; try done.
    rewrite Ht. unfold committed_write. cbn [trace set_conn_var].
    rewrite <- app_assoc. f_equal. cbn [app]. f_equal.
    by rewrite <- app_assoc.
  - destruct Hrun as [_ [n Hn]]. by rewrite Hf in Hn.
Qed.


(* =================================================================== *)
(** ** More on [categorize_amount] *)
(* =================================================================== *)


Lemma fge_not_nan (x y : float64) : fge x y = true → x ≠ FNaN.
Proof. intros H ->. by destruct y. Qed.

Lemma flt_fle_weak (a b : float64) : flt a b = true → fle a b = true.
Proof.
  destruct a, b; simpl; try done.
  rewrite !bool_decide_eq_true. apply Qclt_le_weak.
Qed.

Lemma fle_flt_trans (a b c : float64) :
  fle a b = true → flt b c = true → flt a c = true.
Proof.
  destruct a, b, c; simpl; try done.
  rewrite !bool_decide_eq_true. apply Qcle_lt_trans.
Qed.

Lemma fle_trans (a b c : float64) :
  fle a b = true → fle b c = true → fle a c = true.
Proof.
  destruct a, b, c; simpl; try done.
  rewrite !bool_decide_eq_true. apply Qcle_trans.
Qed.

(** X2: the bands follow the amounts: of two numbers, the larger is never in
    a lower band. *)
Theorem categorize_amount_monotone (x y : float64) :
  fle x y = true →
  (band_rank (categorize_amount (VNum x))
   ≤ band_rank (categorize_amount (VNum y)))%nat.
Proof.
  intros Hxy. unfold categorize_amount. cbn [py_float].
  destruct (flt y (FNum (Qz 50))) eqn:Y1.
  - by rewrite (fle_flt_trans x y _ Hxy Y1).
  - destruct (fle y (FNum (Qz 200))) eqn:Y2.
    + rewrite (fle_trans x y _ Hxy Y2).
      destruct (flt x (FNum (Qz 50))); vm_compute; lia.
    + destruct (flt x (FNum (Qz 50))); [vm_compute; lia |].
      destruct (fle x (FNum (Qz 200))); vm_compute; lia.
Qed.

(** X3: the band of [amount_categories] that carries the name
    [categorize_amount] gives to a non-negative amount starts at or below
    the amount, and ends at or above it exactly when the amount is at most
    999999.99: a larger amount is [high] and lies above every band. *)
Theorem categorize_amount_within_band (x : float64) :
  fge x fzero = true →
  ∃ lo hi,
    (categorize_amount (VNum x), (lo, hi)) ∈ amount_categories_dict
    ∧ fle lo x = true
    ∧ (fle x hi = true ↔ fle x max_band_amount = true).
Proof.
  intros H0. pose proof (fge_not_nan _ _ H0) as Hn.
  unfold categorize_amount, py_float, amount_categories_dict.
  destruct (flt x (FNum (Qz 50))) eqn:E1.
  - exists (FNum (Qz 0)), (FNum (Qz 50)).
    split; [by left |]. split; [exact H0 |].
    apply flt_fle_weak in E1. split; intros _; [| exact E1].
    eapply fle_trans; [exact E1 | reflexivity].
  - apply flt_false_fle in E1; [| done | done].
    destruct (fle x (FNum (Qz 200))) eqn:E2.
    + exists (FNum (Qz 50)), (FNum (Qz 200)).
      split; [right; by left |]. split; [exact E1 |].
      split; intros _; [| done].
      eapply fle_trans; [exact E2 | reflexivity].
    + apply fle_false_flt in E2; [| done | done].
      exists (FNum (Qz 200)), max_band_amount.
      split; [right; right; by left |].
      split; [by apply flt_fle_weak | done].
Qed.

(* =================================================================== *)
(** ** More on [clean_data] *)
(* =================================================================== *)






(* =================================================================== *)
(** ** More on [enrich_data] *)
(* =================================================================== *)

Lemma cell_delete_ne (r : gmap string value) (c c' : string) :
  c ≠ c' → cell (delete c r) c' = cell r c'.
Proof. intros H. unfold cell. by rewrite lookup_delete_ne. Qed.

(** The cells of a record after the merge of [enrich_data], on the fields
    the merge does not write. *)
Lemma merge_left_cell (df : DataFrame) (t : list (value * float64))
    (c : string) :
  c ≠ total_customer_transactions →
  c ≠ total_customer_transactions +:+ "_x" →
  c ≠ total_customer_transactions +:+ "_y" →
  column c (merge_left customer_id total_customer_transactions df t)
  = column c df.
Proof.
  intros H1 H2 H3. unfold merge_left, column.
  destruct (bool_decide _); cbn [rows]; to_fmap;
    rewrite <- list_fmap_compose; apply list_fmap_ext; intros i r _;
    simpl.
  - rewrite !cell_insert_ne by done. by apply cell_delete_ne.
  - by rewrite cell_insert_ne.
Qed.

Lemma merge_left_length (df : DataFrame) (t : list (value * float64)) :
  length (rows (merge_left customer_id total_customer_transactions df t))
  = length (rows df).
Proof.
  unfold merge_left. destruct (bool_decide _); cbn [rows];
    by rewrite length_map.
Qed.

(** X5: [enrich_data] keeps every record, once and in its place: the batch
    it returns has as many records as the one it is given, every field it
    does not write is as it was, record by record, the amount is the amount
    coerced, and the category of a record is the band of its own coerced
    amount. *)
Theorem enrich_data_keeps_records (df e : DataFrame) :
  enrich_data (Some df) = Ok (Some e) →
  length (rows e) = length (rows df)
  ∧ (∀ c, c ∉ enrichment_fields → column c e = column c df)
  ∧ (has_column transaction_amount df = true →
     column transaction_amount e
     = to_numeric <$> column transaction_amount df
     ∧ column amount_category e
       = (λ v, VStr (categorize_amount (to_numeric v)))
           <$> column transaction_amount df).
Proof.
  unfold enrich_data. destruct (df_empty df); [done |].
  destruct (has_column transaction_amount df) eqn:Hamt;
    [| intros [= <-]; by repeat split].
  destruct (has_column customer_id _); [| done].
  intros [= <-]. split; [| split].
  - rewrite merge_left_length. cbn [rows assign map_column].
    by rewrite !length_map.
  - intros c Hc. unfold enrichment_fields in Hc.
    rewrite !not_elem_of_cons in Hc.
    destruct Hc as (H1 & H2 & H3 & H4 & H5 & _).
    rewrite merge_left_cell by done.
    unfold column. cbn [rows assign map_column]. to_fmap.
    rewrite <- !list_fmap_compose. apply list_fmap_ext. intros i r _.
    simpl. by rewrite !cell_insert_ne.
  - intros _. split.
    + rewrite merge_left_cell by done.
      unfold column. cbn [rows assign map_column]. to_fmap.
      rewrite <- !list_fmap_compose. apply list_fmap_ext. intros i r _.
      simpl. rewrite cell_insert_ne by done. by rewrite cell_insert_eq.
    + rewrite merge_left_cell by done.
      unfold column. cbn [rows assign map_column]. to_fmap.
      rewrite <- !list_fmap_compose. apply list_fmap_ext. intros i r _.
      simpl. by rewrite !cell_insert_eq.
Qed.

(* =================================================================== *)
(** ** [clean_data] then [enrich_data] *)
(* =================================================================== *)









(* =================================================================== *)
(** ** Runs of [main] *)
(* =================================================================== *)

(** Cleaning changes no column name. *)
Lemma clean_data_columns (df out : DataFrame) :
  clean_data (Some df) = Some out → columns out = columns df.
Proof.
  rewrite clean_data_unfold. destruct (df_empty df); [done |].
  intros [= <-].
  pose proof (columns_clean_before_amounts df) as Hcols.
  by destruct (has_column transaction_amount df).
Qed.

Lemma main_unfold : main = (_ ← get_db_connection;
                            raw_df ← get_transaction_data;
                            main_stages raw_df).
Proof. reflexivity. Qed.

(** [main] up to the fetch, the connection made and a batch fetched: the
    stages run on a new object that holds the batch, in a world where
    only the first connection has been made on the store. *)
Lemma main_fetched (w : world) (batch : DataFrame) :
  faults (clock w) = None →
  provider = Ok batch →
  ∃ l w1,
    main w = main_stages (Some l) w1
    ∧ heap w1 !! l = Some batch
    ∧ committed w1 = committed w
    ∧ trace w1 = trace w ++ [EvConnect (fresh (dom (conns w)))]
    ∧ conns w1
      = <[fresh (dom (conns w)) := mkConnection true None]> (conns w)
    ∧ clock w1 = S (clock w).
Proof.
  intros Hf Hp. rewrite main_unfold.
  unfold get_db_connection, db_call, get_transaction_data.
  rewrite Hp. rewrite !bind_run, Hf.
  unfold try_except. rewrite !bind_run.
  unfold alloc, print, mret, M_ret.
  eexists _, _. split; [reflexivity |].
  unfold set_console, set_heap, log_event, set_conns, tick.
  cbn [heap console committed conns clock trace conn_var].
  repeat split; try done. apply lookup_insert_eq.
Qed.

Lemma display_data_run (l : nat) (d : DataFrame) (w : world) :
  heap w !! l = Some d →
  ∃ w', display_data (Some l) w = (Ok (), w') ∧ same_but_console w w'.
Proof.
  intros Hl. unfold display_data, load. rewrite bind_run, Hl.
  destruct (df_empty d); [by eexists |].
  rewrite bind_run. unfold print. by eexists.
Qed.

(** [enrich_data] raises on a batch with amounts and no customers. *)
Lemma enrich_data_no_customer (d : DataFrame) :
  df_empty d = false →
  has_column transaction_amount d = true →
  has_column customer_id d = false →
  enrich_data (Some d) = Raise KeyError.
Proof.
  intros He Ha Hc. unfold enrich_data. rewrite He, Ha.
  assert (has_column customer_id
            (assign amount_category
               (λ r, VStr (categorize_amount (cell r transaction_amount)))
               (map_column transaction_amount to_numeric d)) = false)
    as ->; [| done].
  unfold has_column in *. cbn [columns assign map_column].
  apply bool_decide_eq_false. apply bool_decide_eq_false in Hc.
  destruct (bool_decide (amount_category ∈ columns d)); [done |].
  intros [?|Hin]%elem_of_app; [done |].
  apply list_elem_of_singleton in Hin. discriminate.
Qed.

(** X7: a run on a batch that has amounts but no [customer_id] column, of
    which cleaning leaves something: [groupby] raises [KeyError] in
    [enrich_data], nothing catches it, and [main] ends with that exception,
    nothing written. *)
Theorem main_raises_without_customer_id (w : world)
    (batch out : DataFrame) :
  faults (clock w) = None →
  provider = Ok batch →
  has_column transaction_amount batch = true →
  has_column customer_id batch = false →
  clean_data (Some batch) = Some out →
  df_empty out = false →
  ∃ w',
    main w = (Raise KeyError, w')
    ∧ committed w' = committed w
    ∧ trace w' = trace w ++ [EvConnect (fresh (dom (conns w)))].
Proof.
  intros Hf Hp Ha Hc Hclean Hne.
  destruct (main_fetched w batch Hf Hp)
    as (l & w1 & -> & Hl & Hc1 & Ht1 & _).
  destruct (clean_data_prog_run l batch w1 Hl)
    as (r & w2 & Hrun & (_ & Hc2 & _ & _ & Ht2 & _) & Hr & _).
  rewrite Hclean in Hr. destruct r as [lc|]; [| done].
  cbn [deref mbind option_bind] in Hr.
  destruct (enrich_data_prog_run lc out w2 Hr)
    as (r3 & w3 & Hrun3 & (_ & Hc3 & _ & _ & Ht3 & _) & Hr3).
  assert (enrich_data (Some out) = Raise KeyError) as Hraise.
  { apply enrich_data_no_customer; [done | |].
    - unfold has_column in *.
      by rewrite (clean_data_columns batch out Hclean).
    - unfold has_column in *.
      by rewrite (clean_data_columns batch out Hclean). }
  destruct r3 as [r3|e3]; [destruct Hr3 as [Hr3 _]; congruence |].
  assert (e3 = KeyError) as -> by congruence.
  exists w3. unfold main_stages.
  rewrite bind_run, Hrun, bind_run, Hrun3.
  rewrite Hc3, Hc2, Ht3, Ht2. done.
Qed.

(* =================================================================== *)
(** ** The writer on a frame it cannot convert *)
(* =================================================================== *)

Lemma py_float_raises (v : value) (e : exn) :
  py_float v = Raise e → is_Exception e = true.
Proof.
  destruct v as [| s | x]; cbn [py_float]; [by intros [= <-] | | done].
  destruct (float_of_string s); [done | by intros [= <-]].
Qed.

Lemma floats_of_raises (c : string) (rs : list (gmap string value))
    (e : exn) :
  floats_of c rs = Raise e → is_Exception e = true.
Proof.
  induction rs as [| r rs IH]; cbn [floats_of]; [done |].
  destruct (py_float (cell r c)) eqn:Hf.
  - destruct (floats_of c rs); [done |].
    intros [= <-]. by apply IH.
  - intros [= <-]. by eapply py_float_raises.
Qed.

(** What [astype] raises, [except Exception] catches. *)
Lemma astype_raises (df : DataFrame) (e : exn) :
  astype df = Raise e → is_Exception e = true.
Proof.
  unfold astype. destruct (forallb _ _); [| by intros [= <-]].
  cbv zeta. destruct (floats_of _ _) eqn:Hf; [done |].
  intros [= <-]. by eapply floats_of_raises.
Qed.

(** A frame without one of the eight columns does not convert. *)
Lemma astype_missing_column (df : DataFrame) (c : string) :
  c ∈ transaction_amount :: str_columns →
  has_column c df = false →
  astype df = Raise KeyError.
Proof.
  intros Hin Hc. unfold astype.
  destruct (forallb _ _) eqn:Hall; [| done].
  rewrite forallb_forall in Hall.
  rewrite Hall in Hc; [done |]. by apply list_elem_of_In.
Qed.

Lemma save_to_database_astype_run (l : nat) (df : DataFrame) (e : exn)
    (w : world) :
  heap w !! l = Some df →
  astype df = Raise e →
  save_to_database l w
  = (Ok (),
     set_console
       (console w ++ ["Error inserting data"] ++ ["DataFrame Info:"]
                  ++ ["DataFrame Data Types:"])
       (set_conn_var None w)).
Proof.
  intros Hl Hraise. pose proof (astype_raises df e Hraise) as He.
  unfold save_to_database, save_body, save_handler, save_finally.
  mrun. rewrite Hl. mrun. rewrite Hraise. mrun. rewrite He. mrun.
  by rewrite <- !app_assoc.
Qed.


(** X9: a run in which the enriched frame does not convert: the writer
    prints the error and returns, and [main] goes on to report [Process
    completed!], with nothing written, no second connection made, and the
    first one still open. *)
Theorem main_completes_when_conversion_fails (w : world)
    (batch out en : DataFrame) (e : exn) :
  faults (clock w) = None →
  provider = Ok batch →
  clean_data (Some batch) = Some out →
  enrich_data (Some out) = Ok (Some en) →
  astype en = Raise e →
  ∃ w',
    main w = (Ok (), w')
    ∧ committed w' = committed w
    ∧ trace w' = trace w ++ [EvConnect (fresh (dom (conns w)))]
    ∧ conns w'
      = <[fresh (dom (conns w)) := mkConnection true None]> (conns w)
    ∧ "Error inserting data" ∈ console w'
    ∧ last (console w') = Some "Process completed!".
Proof.
  intros Hf Hp Hclean Henrich Hraise.
  destruct (main_fetched w batch Hf Hp)
    as (l & w1 & -> & Hl & Hc1 & Ht1 & Hn1 & _).
  destruct (clean_data_prog_run l batch w1 Hl)
    as (r & w2 & Hrun & (_ & Hc2 & Hn2 & _ & Ht2 & _) & Hr & _).
  rewrite Hclean in Hr. destruct r as [lc|]; [| done].
  cbn [deref mbind option_bind] in Hr.
  destruct (enrich_data_prog_run lc out w2 Hr)
    as (r3 & w3 & Hrun3 & (_ & Hc3 & Hn3 & _ & Ht3 & _) & Hr3).
  destruct r3 as [r3|e3]; [| congruence].
  destruct Hr3 as (Hr3 & _). rewrite Henrich in Hr3.
  destruct r3 as [le|]; [| done].
  cbn [deref mbind option_bind] in Hr3.
  assert (heap w3 !! le = Some en) as Hle by congruence.
  destruct (display_data_run le en w3 Hle)
    as (w4 & Hrun4 & Hh4 & Hc4 & Hn4 & _ & Ht4 & _).
  unfold main_stages.
  rewrite bind_run, Hrun, bind_run, Hrun3, bind_run, Hrun4.
  rewrite bind_run. unfold print at 1. rewrite bind_run.
  rewrite (save_to_database_astype_run le en e _);
    [| by cbn [heap set_console]; rewrite Hh4 | done].
  unfold print, set_console, set_conn_var.
  cbn [heap console committed conns clock trace conn_var].
  eexists. split; [reflexivity |].
  cbn [heap console committed conns clock trace conn_var].
  split; [congruence |]. split; [congruence |]. split; [congruence |].
  split.
  - rewrite !elem_of_app. left. right. left. by left.
  - apply last_snoc.
Qed.

(* =================================================================== *)
(** ** Failures of the write *)
(* =================================================================== *)

Lemma hoare_seq_holding {A B : Type} (c : nat) (tr : list db_event)
    (m : M A) (f : A → M B) :
  hoare (holding c tr) m (step_fault c tr) →
  (∀ a, hoare (holding c tr) (f a) (step_fault c tr)) →
  hoare (holding c tr) (m ≫= f) (step_fault c tr).
Proof.
  intros Hm Hf w HP. specialize (Hm w HP).
  unfold mbind, M_bind. destruct (m w) as [[a|e] w1]; cbn [fst snd] in *.
  - apply Hf, Hm.
  - done.
Qed.

Lemma db_call_holding (c : nat) (tr : list db_event) :
  hoare (holding c tr) db_call (step_fault c tr).
Proof.
  intros w (Hv & Ho & Ht). unfold db_call.
  destruct (faults (clock w)) as [e|] eqn:Hf; cbn [fst snd];
    (split; [done |]); [| done].
  by exists (clock w).
Qed.

Lemma print_holding (c : nat) (tr : list db_event) (s : string) :
  hoare (holding c tr) (print s) (step_fault c tr).
Proof. by intros w Hw. Qed.

Lemma cursor_holding (c : nat) (tr : list db_event) :
  hoare (holding c tr) (cursor c)
    (λ r w, match r with
            | Ok cur => cur = c ∧ holding c tr w
            | Raise e => step_fault c tr (Raise e : result ()) w
            end).
Proof.
  intros w Hw. pose proof (db_call_holding c tr w Hw) as H.
  unfold cursor, mbind, M_bind.
  destruct (db_call w) as [[[]|e] w1]; cbn [fst snd] in *.
  - split; [done | apply H].
  - exact H.
Qed.

Lemma execute_holding (c : nat) (tr : list db_event) (s : stmt) :
  hoare (holding c tr) (execute c s) (step_fault c tr).
Proof.
  unfold execute. apply hoare_seq_holding; [apply db_call_holding |].
  intros [] w (Hv & (t & Ho) & evs & Ht & Hevs).
  rewrite Ho. cbn [fst snd]. split; [| done].
  unfold holding, log_event, set_conns.
  cbn [heap console committed conns clock trace conn_var].
  split; [done |]. split.
  - eexists. apply lookup_insert_eq.
  - exists (evs ++ [EvExecute c s]). rewrite Ht, app_assoc.
    split; [done |]. apply Forall_app. split; [done | by constructor].
Qed.

Lemma for_each_holding {A : Type} (c : nat) (tr : list db_event)
    (f : A → M ()) (l : list A) :
  (∀ a, hoare (holding c tr) (f a) (step_fault c tr)) →
  hoare (holding c tr) (for_each f l) (step_fault c tr).
Proof.
  intros Hf. induction l as [| a l IH]; cbn [for_each].
  - by intros w Hw.
  - apply hoare_seq_holding; [apply Hf | by intros []].
Qed.

Lemma commit_holding (c : nat) (tr : list db_event) :
  hoare (holding c tr) (commit c) (step_fault c tr).
Proof.
  unfold commit. apply hoare_seq_holding; [apply db_call_holding |].
  intros [] w (Hv & (t & Ho) & evs & Ht & Hevs).
  rewrite Ho. cbn [fst snd]. split; [| done].
  unfold holding, log_event, set_conns, set_committed.
  cbn [heap console committed conns clock trace conn_var].
  split; [done |]. split.
  - eexists. apply lookup_insert_eq.
  - exists (evs ++ [EvCommit c]). rewrite Ht, app_assoc.
    split; [done |]. apply Forall_app. split; [done | by constructor].
Qed.

(** The writes keep the connection and roll nothing back, and stop on
    faults only. *)
Lemma save_writes_holding (c : nat) (tr : list db_event)
    (d : DataFrame) :
  hoare (holding c tr) (save_writes c d) (step_fault c tr).
Proof.
  unfold save_writes, execute_batch.
  eapply hoare_bind; [apply cursor_holding |].
  intros cur. apply hoare_pure. intros ->.
  repeat (apply hoare_seq_holding;
          [ first [ apply print_holding
                  | apply commit_holding
                  | apply for_each_holding; intros ?;
                    apply execute_holding ]
          | intros [] ]).
  apply print_holding.
Qed.

(** How the [try] block raises: before it has a connection, on a frame
    it cannot load or convert or on the fault of [connect]; or holding
    its connection, on the fault of the call made last. *)
Lemma save_body_raises (l : nat) (w0 w1 : world) (e : exn) :
  conn_var w0 = None →
  save_body l w0 = (Raise e, w1) →
  (conn_var w1 = None ∧ trace w1 = trace w0 ∧ conns w1 = conns w0
   ∧ (is_Exception e = true ∨ ∃ n, faults n = Some e))
  ∨ (holding (fresh (dom (conns w0))) (trace w0) w1
     ∧ ∃ n, clock w1 = S n ∧ faults n = Some e).
Proof.
  intros Hv. rewrite save_body_prelude.
  destruct (heap w0 !! l) as [df|]; [| intros [= <- <-]; left; eauto].
  destruct (astype df) as [d|e'] eqn:Ha.
  - destruct (faults (clock w0)) as [e'|] eqn:Hf.
    + intros [= <- <-]. left. repeat split; eauto.
    + intros Hrun. right.
      pose proof (save_writes_holding (fresh (dom (conns w0))) (trace w0)
                    d) as H.
      match type of Hrun with
      | save_writes _ _ ?w = _ => specialize (H w)
      end.
      rewrite Hrun in H. apply H.
      unfold holding, set_conn_var, log_event, set_conns, tick.
      cbn [heap console committed conns clock trace conn_var].
      split; [done |]. split; [eexists; apply lookup_insert_eq |].
      eexists. split; [done |]. by constructor.
  - intros [= <- <-]. left. repeat split; try done.
    left. by eapply astype_raises.
Qed.

Lemma save_handler_no_connection (e : exn) (w1 : world) :
  conn_var w1 = None →
  save_handler e w1
  = (Ok (),
     set_console
       (console w1 ++ ["Error inserting data"] ++ ["DataFrame Info:"]
                   ++ ["DataFrame Data Types:"]) w1).
Proof.
  intros Hv. unfold save_handler. mrun. rewrite Hv. mrun.
  by rewrite <- !app_assoc, Hv.
Qed.

Lemma save_handler_rolls_back (e : exn) (c : nat) (w1 : world) :
  conn_var w1 = Some c →
  (∃ t, conns w1 !! c = Some (mkConnection true t)) →
  faults (clock w1) = None →
  save_handler e w1
  = (Ok (),
     set_console
       (console w1 ++ ["Error inserting data"] ++ ["DataFrame Info:"]
                   ++ ["DataFrame Data Types:"])
       (log_event (EvRollback c)
          (set_conns (<[c := mkConnection true None]> (conns w1))
             (tick w1)))).
Proof.
  intros Hv [t Ho] Hf. unfold save_handler, rollback, db_call.
  mrun. rewrite Hv, Hf. mrun. rewrite Ho. mrun.
  by rewrite <- !app_assoc, Hv.
Qed.

(** X10: under faults that are all of class [Exception], no two of them at
    consecutive calls, [save_to_database] always returns: whatever the [try]
    block raises is caught, the rollback, made right after the failing call,
    goes through, and the [finally] clause does not raise. *)
Theorem save_to_database_returns (l : nat) (w : world) :
  (∀ n e, faults n = Some e → is_Exception e = true) →
  (∀ n, faults n ≠ None → faults (S n) = None) →
  (save_to_database l w).1 = Ok ().
Proof.
  intros Hcls Hgap. rewrite save_to_database_unfold. cbv zeta. cbn [fst].
  destruct (save_body l (set_conn_var None w)) as [[[]|e] w1] eqn:Hb;
    [done |].
  destruct (save_body_raises l (set_conn_var None w) w1 e eq_refl Hb)
    as [(Hv & _ & _ & He) | (Hh & n & Hk & Hf)].
  - assert (is_Exception e = true) as ->
        by (destruct He as [| [n Hn]]; eauto).
    by rewrite save_handler_no_connection.
  - rewrite (Hcls _ _ Hf). destruct Hh as (Hv & Ho & _).
    rewrite (save_handler_rolls_back e _ w1 Hv Ho); [done |].
    rewrite Hk. apply Hgap. congruence.
Qed.

(** X11: a write stopped by an [Exception] while it holds its connection,
    the rollback not failing in turn: [save_to_database] returns normally,
    and the last two things done on the store are the rollback and the close
    of that connection, the one rollback of the write; the connection is
    left closed with no transaction. *)
Theorem save_to_database_rolls_back (l : nat) (w w1 : world) (e : exn) :
  save_body l (set_conn_var None w) = (Raise e, w1) →
  is_Exception e = true →
  conn_var w1 ≠ None →
  faults (clock w1) = None →
  let c := fresh (dom (conns w)) in
  (save_to_database l w).1 = Ok ()
  ∧ (∃ evs, trace (save_to_database l w).2
            = trace w ++ evs ++ [EvRollback c; EvClose c]
            ∧ Forall (λ ev, is_rollback ev = false) evs)
  ∧ conns (save_to_database l w).2 !! c
    = Some (mkConnection false None).
Proof.
  intros Hb He Hv Hf c. rewrite save_to_database_unfold. cbv zeta.
  rewrite Hb, He.
  destruct (save_body_raises l (set_conn_var None w) w1 e eq_refl Hb)
    as [(Hv' & _) | ((Hv' & Ho & evs & Ht & Hevs) & _)]; [done |].
  cbn [conns set_conn_var] in *. fold c in Hv', Ho, Ht.
  rewrite (save_handler_rolls_back e c w1 Hv' Ho Hf).
  cbn [fst snd]. rewrite save_finally_run.
  unfold set_console, log_event, set_conns, tick.
  cbn [heap console committed conns clock trace conn_var].
  rewrite Hv'.
  cbn [heap console committed conns clock trace conn_var].
  split; [done |]. split.
  - exists evs. split; [| done].
    rewrite Ht. cbn [trace]. by rewrite <- !app_assoc.
  - apply lookup_insert_eq.
Qed.

(** X12: a write stopped by an exception that is not of class [Exception] (a
    [KeyboardInterrupt]): the [except] clause does not apply, the exception
    is the fault of a call to the database and leaves [save_to_database] as
    it is, and no rollback is made. *)
Theorem save_to_database_interrupted (l : nat) (w w1 : world) (e : exn) :
  save_body l (set_conn_var None w) = (Raise e, w1) →
  is_Exception e = false →
  (save_to_database l w).1 = Raise e
  ∧ (∃ n, faults n = Some e)
  ∧ ∃ evs, trace (save_to_database l w).2 = trace w ++ evs
           ∧ Forall (λ ev, is_rollback ev = false) evs.
Proof.
  intros Hb He. rewrite save_to_database_unfold. cbv zeta.
  rewrite Hb, He. cbn [fst snd]. rewrite save_finally_run.
  split; [done |].
  destruct (save_body_raises l (set_conn_var None w) w1 e eq_refl Hb)
    as [(Hv & Ht & _ & Hex)
       | ((Hv & _ & evs & Ht & Hevs) & n & _ & Hn)].
  - split; [destruct Hex as [|]; [congruence | done] |].
    rewrite Hv. exists []. by rewrite app_nil_r.
  - split; [by exists n |]. rewrite Hv.
    unfold set_console, log_event, set_conns.
    cbn [heap console committed conns clock trace conn_var].
    exists (evs ++ [EvClose (fresh (dom (conns w)))]).
    rewrite Ht. cbn [trace conns set_conn_var].
    rewrite <- app_assoc. split; [done |].
    apply Forall_app. split; [done | by constructor].
Qed.

(* =================================================================== *)
(** ** What a write leaves in the store *)
(* =================================================================== *)

Lemma insert_new_prefix {A : Type} (key : A → string) (x : A)
    (t : list A) :
  t `prefix_of` insert_new key x t.
Proof.
  unfold insert_new. destruct (bool_decide _); [done |].
  by apply prefix_app_r.
Qed.

Lemma tables_prefix_refl (t : tables) : tables_prefix t t.
Proof. by repeat split. Qed.

Lemma tables_prefix_trans (t1 t2 t3 : tables) :
  tables_prefix t1 t2 → tables_prefix t2 t3 → tables_prefix t1 t3.
Proof.
  intros (?&?&?&?&?&?) (?&?&?&?&?&?).
  repeat split; by etrans.
Qed.

Lemma exec_stmt_prefix (s : stmt) (t : tables) :
  tables_prefix t (exec_stmt s t).
Proof.
  destruct s; unfold tables_prefix;
    cbn [exec_stmt customers products transaction_types spend_categories
         amount_categories transactions];
    repeat split;
    first [ done | apply insert_new_prefix | by apply prefix_app_r ].
Qed.

(** Statements only add rows, after those that are there. *)
Lemma run_statements_prefix (ss : list stmt) (t : tables) :
  tables_prefix t (run_statements ss t).
Proof.
  revert t. induction ss as [| s ss IH]; intros t.
  - apply tables_prefix_refl.
  - eapply tables_prefix_trans; [apply exec_stmt_prefix |].
    apply (IH (exec_stmt s t)).
Qed.

(** X13: whatever the frame and the faults, and however the write ends, the
    committed tables after [save_to_database] begin with the committed
    tables before it: the writer adds rows and never changes, removes or
    reorders one that is committed. *)
Theorem save_to_database_keeps_rows (l : nat) (w : world) :
  tables_prefix (committed w) (committed (save_to_database l w).2).
Proof.
  rewrite save_to_database_unfold. cbv zeta. cbn [snd].
  pose proof (save_after_try l w) as H. cbv zeta in H.
  rewrite save_finally_run. cbn [snd].
  match goal with
  | |- tables_prefix _ (committed (match conn_var ?w' with _ => _ end)) =>
      assert (tables_prefix (committed w) (committed w')) as Hpre
  end.
  { destruct (save_body l (set_conn_var None w)).1.
    - destruct H as (_ & df & d & _ & _ & _ & _ & -> & _).
      apply run_statements_prefix.
    - destruct H as (_ & -> & _). apply tables_prefix_refl. }
  by destruct (conn_var _).
Qed.

Lemma floats_of_rows (c : string) (rs rs' : list (gmap string value)) :
  floats_of c rs = Ok rs' →
  ∀ r', r' ∈ rs' → ∃ r x, r ∈ rs ∧ r' = <[c := VNum x]> r.
Proof.
  revert rs'. induction rs as [| r rs IH]; intros rs'; cbn [floats_of].
  - intros [= <-] r' ?%elem_of_nil. done.
  - destruct (py_float (cell r c)) as [x|]; [| done].
    destruct (floats_of c rs) as [rs0|]; [| done].
    intros [= <-] r' [-> | Hin]%elem_of_cons.
    + exists r, x. split; [by left | done].
    + destruct (IH rs0 eq_refl r' Hin) as (r0 & x0 & ? & ?).
      exists r0, x0. split; [by right | done].
Qed.

Lemma str_cells (cs : list string) (df : DataFrame)
    (r : gmap string value) (c : string) :
  r ∈ rows (foldr (λ c df, map_column c (λ v, VStr (py_str v)) df) df cs) →
  c ∈ cs →
  ∃ s, cell r c = VStr s.
Proof.
  revert r. induction cs as [| c0 cs IH]; intros r; cbn [foldr].
  - by intros _ ?%elem_of_nil.
  - unfold map_column at 1. cbn [rows]. to_fmap.
    intros (r0 & -> & Hr0)%list_elem_of_fmap Hc.
    destruct (decide (c0 = c)) as [-> | Hne].
    + rewrite cell_insert_eq. by eexists.
    + rewrite cell_insert_ne by done. apply IH; [done |].
      by apply elem_of_cons in Hc as [-> |].
Qed.

(** After [astype], the seven string columns hold strings. *)
Lemma astype_str_cells (df d : DataFrame) (r : gmap string value)
    (c : string) :
  astype df = Ok d → r ∈ rows d → c ∈ str_columns →
  ∃ s, cell r c = VStr s.
Proof.
  unfold astype. destruct (forallb _ _); [| done]. cbv zeta.
  destruct (floats_of _ _) as [rs|] eqn:Hf; [| done].
  intros [= <-] Hr Hc. cbn [rows] in Hr.
  destruct (floats_of_rows _ _ _ Hf r Hr) as (r0 & x & Hr0 & ->).
  rewrite cell_insert_ne.
  - by eapply str_cells.
  - intros <-. revert Hc. apply (bool_decide_unpack _). by vm_compute.
Qed.

Lemma unique_elem {A : Type} `{EqDecision A} (l : list A) (x : A) :
  x ∈ l → x ∈ unique l.
Proof.
  intros Hx.
  destruct (keep_first_complete id [] l x Hx) as (y & Hy & Heq).
  - by intros ?%elem_of_nil.
  - unfold unique. cbn [id] in Heq. by subst y.
Qed.

(** After the lookup statements of a converted frame, the lookup tables
    have a row for every reference of its records, and the three
    bands. *)
Lemma lookup_statements_cover (df d : DataFrame) (t : tables)
    (r : gmap string value) :
  astype df = Ok d →
  r ∈ rows d →
  let t1 := run_statements (lookup_statements d) t in
  str_of r "customer_id" ∈ customers t1
  ∧ str_of r "product_id" ∈ (products t1).*1
  ∧ str_of r "transaction_type" ∈ transaction_types t1
  ∧ str_of r "spend_category" ∈ spend_categories t1
  ∧ (∀ n, n ∈ band_names → n ∈ (amount_categories t1).*1).
Proof.
  intros Ha Hr t1.
  pose proof (run_covers (lookup_statements d) t) as Hcov.
  rewrite Forall_forall in Hcov. fold t1 in Hcov.
  assert (∀ c, cell r c ∈ column c d) as Hcol.
  { intros c. unfold column. to_fmap. apply list_elem_of_fmap. eauto. }
  split; [| split; [| split; [| split]]].
  - specialize (Hcov (InsertCustomer (str_of r "customer_id"))).
    cbn [covered] in Hcov. rewrite map_id in Hcov. apply Hcov.
    unfold lookup_statements. rewrite !elem_of_app. left.
    apply list_elem_of_fmap_2. unfold customer_data, str_of. to_fmap.
    apply list_elem_of_fmap_2, unique_elem, Hcol.
  - destruct (keep_first_complete
                (row_key ["product_id"; "product_category"]) []
                (rows d) r Hr) as (y & Hy & Heq);
      [by intros ?%elem_of_nil |].
    pose proof Hy as [Hyd _]%keep_first_elem.
    assert (str_of y "product_id" = str_of r "product_id") as <-.
    { unfold row_key in Heq. cbn [map] in Heq.
      injection Heq as Heq _.
      destruct (astype_str_cells df d y "product_id" Ha Hyd) as [s Hs].
      { apply (bool_decide_unpack _). by vm_compute. }
      destruct (astype_str_cells df d r "product_id" Ha Hr) as [s' Hs'].
      { apply (bool_decide_unpack _). by vm_compute. }
      unfold str_of. rewrite Hs, Hs' in *. unfold factor in Heq.
      cbn [isnull] in Heq. congruence. }
    specialize (Hcov (InsertProduct (str_of y "product_id")
                        (str_of y "product_category"))).
    cbn [covered] in Hcov. apply Hcov.
    unfold lookup_statements. rewrite !elem_of_app. right. left.
    apply (list_elem_of_fmap_2 (λ p, InsertProduct p.1 p.2) _
             (str_of y "product_id", str_of y "product_category")).
    unfold product_data. to_fmap.
    by apply (list_elem_of_fmap_2
                (λ r, (str_of r "product_id",
                       str_of r "product_category"))).
  - specialize (Hcov (InsertTransactionType
                        (str_of r "transaction_type"))).
    cbn [covered] in Hcov. rewrite map_id in Hcov. apply Hcov.
    unfold lookup_statements. rewrite !elem_of_app. right. right. left.
    apply list_elem_of_fmap_2. unfold transaction_type_data, str_of.
    to_fmap. apply list_elem_of_fmap_2, unique_elem, Hcol.
  - specialize (Hcov (InsertSpendCategory (str_of r "spend_category"))).
    cbn [covered] in Hcov. rewrite map_id in Hcov. apply Hcov.
    unfold lookup_statements. rewrite !elem_of_app.
    right. right. right. left.
    apply list_elem_of_fmap_2. unfold spend_category_data, str_of.
    to_fmap. apply list_elem_of_fmap_2, unique_elem, Hcol.
  - intros n Hn.
    assert (∃ lo hi, (n, (lo, hi)) ∈ amount_categories_dict)
      as (lo & hi & Hin).
    { unfold band_names in Hn. unfold amount_categories_dict.
      repeat (apply elem_of_cons in Hn as [-> | Hn];
              [do 2 eexists; rewrite !elem_of_cons; naive_solver |]).
      by apply elem_of_nil in Hn. }
    specialize (Hcov (InsertAmountCategory n lo hi)).
    cbn [covered] in Hcov. apply Hcov.
    unfold lookup_statements. rewrite !elem_of_app.
    right. right. right. right.
    by apply (list_elem_of_fmap_2
                (λ kv, InsertAmountCategory kv.1 kv.2.1 kv.2.2) _
                (n, (lo, hi))).
Qed.

Lemma select_id_found (n : string) (names : list string) :
  n ∈ names → select_id n names = Some n.
Proof. intros H. unfold select_id. by rewrite bool_decide_eq_true_2. Qed.

Lemma new_facts_of_rows (t : tables) (d : DataFrame) :
  concat (new_fact t <$> transaction_data d)
  = (λ r, mkfact (str_of r "customer_id") (str_of r "product_id")
            (str_of r "transaction_date")
            (as_float (cell r "transaction_amount"))
            (select_id (str_of r "transaction_type")
               (transaction_types t))
            (select_id (str_of r "spend_category") (spend_categories t))
            (select_id (str_of r "amount_category")
               (map fst (amount_categories t)))) <$> rows d.
Proof.
  unfold transaction_data. to_fmap.
  induction (rows d) as [| r rs IH]; [done |].
  rewrite !fmap_cons. cbn [concat new_fact]. by rewrite IH.
Qed.

(** X14: a write without faults of a frame that converts adds one fact per
    record, in the order of the records, each with the record's customer,
    product, date and amount; every such fact has its customer, its product,
    its transaction type and its spend category in the committed lookup
    tables, and its band when the record's label is [low], [medium] or
    [high]. *)
Theorem save_to_database_facts_resolved (l : nat) (w : world)
    (df d : DataFrame) :
  (∀ n, faults n = None) →
  heap w !! l = Some df →
  astype df = Ok d →
  let t' := committed (save_to_database l w).2 in
  ∃ facts,
    transactions t' = transactions (committed w) ++ facts
    ∧ Forall2 fact_of_record (rows d) facts
    ∧ Forall (fact_resolved t') facts.
Proof.
  intros Hf Hl Ha t'.
  destruct (save_to_database_commits l w df d Hf Hl Ha)
    as (_ & _ & Hc & _).
  subst t'. rewrite Hc. clear Hc.
  set (t := committed w).
  unfold write_statements. rewrite run_statements_app.
  set (t1 := run_statements (lookup_statements d) t).
  destruct (transaction_data_facts d t1) as [Hcov _].
  pose proof (run_covered _ _ Hcov) as Hlk.
  unfold lookup_tables in Hlk. injection Hlk as Hc1 Hc2 Hc3 Hc4 Hc5.
  rewrite (transactions_run_covered _ _ Hcov).
  assert (transactions t1 = transactions t) as ->.
  { apply transactions_run_lookups;
      [apply lookup_statements_no_fact | apply new_fact_nil_any]. }
  eexists. split; [reflexivity |].
  rewrite new_facts_of_rows.
  assert (∀ r, r ∈ rows d →
            str_of r "customer_id" ∈ customers t1
            ∧ str_of r "product_id" ∈ (products t1).*1
            ∧ str_of r "transaction_type" ∈ transaction_types t1
            ∧ str_of r "spend_category" ∈ spend_categories t1
            ∧ (∀ n, n ∈ band_names → n ∈ (amount_categories t1).*1))
    as Hrows.
  { intros r Hr. by apply (lookup_statements_cover df d t r Ha Hr). }
  split.
  - apply Forall2_fmap_r, Forall_Forall2_diag, Forall_forall.
    intros r Hr. destruct (Hrows r Hr) as (_ & _ & Ht & Hs & Hb).
    unfold fact_of_record.
    cbn [f_customer_id f_product_id f_transaction_date
         f_transaction_amount f_transaction_type f_spend_category
         f_amount_category].
    repeat split; try done.
    + by apply select_id_found.
    + by apply select_id_found.
    + intros Hn. apply select_id_found. to_fmap. by apply Hb.
  - apply Forall_fmap, Forall_forall.
    intros r Hr. destruct (Hrows r Hr) as (Hcu & Hp & Ht & Hs & _).
    unfold fact_resolved, compose.
    cbn [f_customer_id f_product_id f_transaction_type
         f_spend_category].
    rewrite Hc1, Hc2, Hc3, Hc4.
    split; [done |]. split; [done |].
    split; eexists; (split; [by apply select_id_found | done]).
Qed.

(** X15: a run without faults on a batch that cleans, enriches and converts:
    [main] returns after [Process completed!], the committed tables are
    those the statements of the converted frame give, and what was done on
    the store is the connection of the first test, which nothing closes, and
    then the write on a second connection: connect, the statements, one
    commit, close. *)
Theorem main_writes_batch (w : world) (batch out en d : DataFrame) :
  (∀ n, faults n = None) →
  provider = Ok batch →
  clean_data (Some batch) = Some out →
  enrich_data (Some out) = Ok (Some en) →
  astype en = Ok d →
  let c0 := fresh (dom (conns w)) in
  let c1 := fresh (dom (<[c0 := mkConnection true None]> (conns w))) in
  ∃ w',
    main w = (Ok (), w')
    ∧ committed w' = run_statements (write_statements d) (committed w)
    ∧ trace w'
      = trace w ++ EvConnect c0 :: committed_write c1 (write_statements d)
    ∧ c1 ≠ c0
    ∧ last (console w') = Some "Process completed!".
Proof.
  intros Hf Hp Hclean Henrich Ha c0 c1.
  destruct (main_fetched w batch (Hf _) Hp)
    as (l & w1 & -> & Hl & Hc1 & Ht1 & Hn1 & _).
  destruct (clean_data_prog_run l batch w1 Hl)
    as (r & w2 & Hrun & (_ & Hc2 & Hn2 & _ & Ht2 & _) & Hr & _).
  rewrite Hclean in Hr. destruct r as [lc|]; [| done].
  cbn [deref mbind option_bind] in Hr.
  destruct (enrich_data_prog_run lc out w2 Hr)
    as (r3 & w3 & Hrun3 & (_ & Hc3 & Hn3 & _ & Ht3 & _) & Hr3).
  destruct r3 as [r3|e3]; [| congruence].
  destruct Hr3 as (Hr3 & _). rewrite Henrich in Hr3.
  destruct r3 as [le|]; [| done].
  cbn [deref mbind option_bind] in Hr3.
  assert (heap w3 !! le = Some en) as Hle by congruence.
  destruct (display_data_run le en w3 Hle)
    as (w4 & Hrun4 & Hh4 & Hc4 & Hn4 & _ & Ht4 & _).
  unfold main_stages.
  rewrite bind_run, Hrun, bind_run, Hrun3, bind_run, Hrun4.
  rewrite bind_run. unfold print at 1. rewrite bind_run.
  set (w5 := set_console _ w4).
  assert (heap w5 !! le = Some en) as Hle5
      by (subst w5; cbn [heap set_console]; by rewrite Hh4).
  destruct (save_to_database_commits le w5 en d Hf Hle5 Ha)
    as (Hok & _ & Hc6 & Ht6).
  destruct (save_to_database le w5) as [r6 w6]. cbn [fst snd] in *.
  subst r6. unfold print, set_console.
  eexists. split; [reflexivity |].
  cbn [heap console committed conns clock trace conn_var].
  assert (conns w5 = <[c0 := mkConnection true None]> (conns w)) as Hn5
      by (subst w5; cbn [conns set_console];
          by rewrite Hn4, Hn3, Hn2, Hn1).
  split; [| split; [| split]].
  - rewrite Hc6. subst w5. cbn [committed set_console].
    by rewrite Hc4, Hc3, Hc2, Hc1.
  - rewrite Ht6, Hn5. subst w5. cbn [trace set_console].
    rewrite Ht4, Ht3, Ht2, Ht1, <- app_assoc. done.
  - subst c1. intros Heq.
    pose proof (is_fresh
                  (dom (<[c0 := mkConnection true None]> (conns w))))
      as Hfresh.
    rewrite Heq in Hfresh. apply Hfresh.
    rewrite dom_insert. set_solver.
  - apply last_snoc.
Qed.

(* =================================================================== *)
(** ** The conversion of an enriched frame *)
(* =================================================================== *)

Lemma to_numeric_number (v : value) : ∃ x, to_numeric v = VNum x.
Proof.
  destruct v as [| s | x]; cbn [to_numeric]; [by eexists | | by eexists].
  destruct (numeric_of_string s); by eexists.
Qed.

(** The amounts [enrich_data] hands on are numbers. *)
Lemma enrich_data_numeric (df en : DataFrame) :
  enrich_data (Some df) = Ok (Some en) →
  has_column transaction_amount en = true →
  Forall (λ v, ∃ x, v = VNum x) (column transaction_amount en).
Proof.
  unfold enrich_data. destruct (df_empty df); [done |].
  destruct (has_column transaction_amount df) eqn:Hamt;
    [| intros [= <-]; congruence].
  destruct (has_column customer_id _); [| done].
  intros [= <-] _. rewrite merge_left_cell by done.
  unfold column. cbn [rows assign map_column]. to_fmap.
  rewrite <- !list_fmap_compose. apply Forall_fmap, Forall_forall.
  intros r _. simpl. rewrite cell_insert_ne by done.
  rewrite cell_insert_eq. apply to_numeric_number.
Qed.

Lemma floats_of_numbers (c : string) (rs : list (gmap string value)) :
  Forall (λ r, ∃ x, cell r c = VNum x) rs →
  ∃ rs', floats_of c rs = Ok rs'.
Proof.
  induction 1 as [| r rs [x Hx] _ [rs' IH]]; cbn [floats_of].
  - by eexists.
  - rewrite Hx. cbn [py_float]. rewrite IH. by eexists.
Qed.

Lemma str_columns_keep (cs : list string) (df : DataFrame) (c : string) :
  c ∉ cs →
  column c (foldr (λ c df, map_column c (λ v, VStr (py_str v)) df) df cs)
  = column c df.
Proof.
  intros Hc. induction cs as [| c0 cs IH]; cbn [foldr]; [done |].
  apply not_elem_of_cons in Hc as [Hne Hc].
  rewrite <- (IH Hc). unfold column, map_column at 1. cbn [rows].
  to_fmap. rewrite <- list_fmap_compose. apply list_fmap_ext.
  intros i r _. simpl. by rewrite cell_insert_ne.
Qed.

Lemma forallb_false {A : Type} (f : A → bool) (l : list A) :
  forallb f l = false → ∃ x, x ∈ l ∧ f x = false.
Proof.
  induction l as [| x l IH]; cbn [forallb]; [done |].
  destruct (f x) eqn:Hx.
  - intros (y & Hy & Hf)%IH. exists y. split; [by right | done].
  - intros _. exists x. split; [by left | done].
Qed.

(** X16: the conversion in [save_to_database] of a frame that comes from
    [enrich_data] fails in one way only: a column the writer names is not
    there, and the exception is [KeyError]. The amounts always convert. *)
Theorem astype_after_enrich (df en : DataFrame) (e : exn) :
  enrich_data (Some df) = Ok (Some en) →
  astype en = Raise e →
  e = KeyError
  ∧ ∃ c, c ∈ transaction_amount :: str_columns
         ∧ has_column c en = false.
Proof.
  intros Hen. unfold astype.
  destruct (forallb _ _) eqn:Hall.
  - cbv zeta.
    assert (has_column transaction_amount en = true) as Hamt.
    { rewrite forallb_forall in Hall. apply Hall. by left. }
    pose proof (enrich_data_numeric df en Hen Hamt) as Hnum.
    destruct (floats_of_numbers transaction_amount
                (rows (foldr (λ c df,
                                map_column c (λ v, VStr (py_str v)) df)
                         en str_columns))) as [rs Hrs].
    { rewrite <- (str_columns_keep str_columns en transaction_amount)
        in Hnum; [| apply (bool_decide_unpack _); by vm_compute].
      unfold column in Hnum.
      change (map ?f ?l) with (f <$> l) in Hnum.
      apply Forall_forall. intros r Hr.
      rewrite Forall_forall in Hnum. apply Hnum.
      apply list_elem_of_fmap. eauto. }
    by rewrite Hrs.
  - intros [= <-]. split; [done |]. by apply forallb_false.
Qed.

(* =================================================================== *)
(** ** Rows that conflict *)
(* =================================================================== *)

Lemma save_to_database_committed (l : nat) (w : world) :
  committed (save_to_database l w).2 = committed w
  ∨ ∃ d, committed (save_to_database l w).2
         = run_statements (write_statements d) (committed w).
Proof.
  rewrite save_to_database_unfold. cbv zeta. cbn [snd].
  pose proof (save_after_try l w) as H. cbv zeta in H.
  rewrite save_finally_run. cbn [snd].
  match goal with
  | |- context [committed (match conn_var ?w' with _ => _ end)] =>
      assert (committed (match conn_var w' with
                         | Some c =>
                             set_console
                               (console w'
                                ++ ["Database connection closed"])
                               (log_event (EvClose c)
                                  (set_conns
                                     (<[c := mkConnection false None]>
                                        (conns w')) w'))
                         | None => w'
                         end) = committed w') as ->
        by (by destruct (conn_var w'))
  end.
  destruct (save_body l (set_conn_var None w)).1.
  - destruct H as (_ & df & d & _ & _ & _ & _ & -> & _). right. by exists d.
  - destruct H as (_ & -> & _). by left.
Qed.

Lemma NoDup_fst_functional {A B : Type} (l : list (A * B)) (k : A)
    (v v' : B) :
  NoDup l.*1 → (k, v) ∈ l → (k, v') ∈ l → v = v'.
Proof.
  induction l as [| [k0 v0] l IH]; [by intros _ ?%elem_of_nil |].
  rewrite fmap_cons. cbn [fst]. intros [Hk0 Hnd]%NoDup_cons.
  intros H1 H2.
  apply elem_of_cons in H1 as [[= -> ->] | H1];
    apply elem_of_cons in H2 as [[= ->] | H2].
  - done.
  - exfalso. apply Hk0.
    by apply (list_elem_of_fmap_2 fst _ (k0, v')).
  - exfalso. apply Hk0.
    by apply (list_elem_of_fmap_2 fst _ (k0, v)).
  - by apply IH.
Qed.

(** X17: a product the store knows keeps the category it was committed with:
    whatever category a later batch gives it, [ON CONFLICT DO NOTHING]
    leaves the row as it is, and the batch's category is dropped without a
    word. *)
Theorem save_to_database_keeps_category (l : nat) (w : world)
    (p cat cat' : string) :
  keys_unique (committed w) →
  (p, cat) ∈ products (committed w) →
  (p, cat') ∈ products (committed (save_to_database l w).2) →
  cat' = cat.
Proof.
  intros Hk Hin Hin'.
  destruct (save_to_database_committed l w) as [Heq | [d Heq]];
    rewrite Heq in Hin'.
  - destruct Hk as (_ & Hnd & _).
    by apply (NoDup_fst_functional _ p cat' cat Hnd).
  - pose proof (keys_unique_run (write_statements d) _ Hk)
      as (_ & Hnd & _).
    apply (NoDup_fst_functional _ p cat' cat Hnd Hin').
    destruct (run_statements_prefix (write_statements d) (committed w))
      as (_ & [k Hp] & _).
    rewrite Hp. apply elem_of_app. by left.
Qed.

End Pipeline.

(* ===================================================================== *)
(** * The model run on batches *)
(* ===================================================================== *)

(** The scenario of the specification for the cleaner: of the four records
    one is left. *)
Example clean_data_scenario :
  clean_data read_decimal read_ymd (Some batch_scenario)
  = Some (mkDataFrame clean_columns
            [transaction "C3" (VStr "2023-01-07") (num 75)]).
Proof. vm_compute. reflexivity. Qed.

(** The scenario of the specification for the enricher: both records of the
    customer carry the total 250, the bands are [low] and [high]. *)
Example enrich_data_scenario :
  enrich_data read_decimal read_decimal (Some batch_two)
  = Ok (Some batch_enriched).
Proof. apply (bool_decide_unpack _). vm_compute. exact I. Qed.

(** An amount that cannot be read, given to [enrich_data] as it is, comes
    out in the band [high]. *)
Example enrich_data_unreadable_amount :
  match enrich_data read_decimal read_decimal (Some batch_bad_amount) with
  | Ok (Some e) => column amount_category e = [VStr "high"]
  | _ => False
  end.
Proof. vm_compute. reflexivity. Qed.

(** A write whose seventh call to the store fails: nothing is committed,
    the transaction is rolled back and the connection closed. *)
Example save_to_database_fault :
  let w := (save_to_database read_decimal show_float
              (fault_at 6 DatabaseError) 0 (world_with batch_enriched)).2 in
  committed w = empty_tables
  ∧ trace w = [ EvConnect 0; EvExecute 0 (InsertCustomer "C1");
                EvExecute 0 (InsertProduct "P1" "books");
                EvExecute 0 (InsertTransactionType "purchase");
                EvExecute 0 (InsertSpendCategory "leisure");
                EvRollback 0; EvClose 0 ]
  ∧ conns w !! 0%nat = Some (mkConnection false None).
Proof. vm_compute. repeat split. Qed.

(** A batch of which cleaning leaves nothing: the enricher reports it and
    the run ends without a write. *)
Example main_all_negative :
  let r := main read_decimal read_decimal read_ymd show_float no_faults
             (Ok batch_all_negative) (initial_world empty_tables) in
  r.1 = Ok ()
  ∧ "No data to enrich" ∈ console r.2
  ∧ trace r.2 = [EvConnect 0]
  ∧ committed r.2 = empty_tables.
Proof.
  cbv zeta. split; [vm_compute; reflexivity |].
  split; [apply (bool_decide_unpack _); vm_compute; exact I |].
  split; vm_compute; reflexivity.
Qed.

(* ===================================================================== *)
(** * The theorems at concrete inputs *)
(* ===================================================================== *)






Lemma main_halts_without_data_witness :
  no_faults (clock (initial_world empty_tables)) = None
  ∧ run_without_data read_decimal read_ymd (Ok batch_empty)
  ∧ ∃ w',
      main read_decimal read_decimal read_ymd show_float no_faults
        (Ok batch_empty) (initial_world empty_tables) = (Ok (), w')
      ∧ committed w' = committed (initial_world empty_tables)
      ∧ trace w'
        = trace (initial_world empty_tables)
          ++ [EvConnect (fresh (dom (conns (initial_world empty_tables))))]
      ∧ (∀ batch, Ok batch_empty = Ok batch → df_empty batch = true →
                  "No data to clean" ∈ console w')
      ∧ (∀ batch, Ok batch_empty = Ok batch → df_empty batch = false →
                  "No data to enrich" ∈ console w').
Proof.
  assert (run_without_data read_decimal read_ymd (Ok batch_empty)) as Hrun
    by (left; reflexivity).
  split; [reflexivity |]. split; [exact Hrun |].
  exact (proj1 (main_halts_without_data read_decimal read_decimal read_ymd
                  show_float no_faults (Ok batch_empty)
                  (initial_world empty_tables) eq_refl Hrun)).
Defined.

Lemma no_amount_column_no_enrichment_witness :
  has_column transaction_amount batch_no_amount = false
  ∧ enrich_data read_decimal read_decimal (Some batch_no_amount)
    = Ok (if df_empty batch_no_amount then None else Some batch_no_amount)
  ∧ clean_data read_decimal read_ymd (Some batch_no_amount)
    = (if df_empty batch_no_amount then None
       else Some (clean_before_amounts read_ymd batch_no_amount))
  ∧ (∀ out,
       clean_data read_decimal read_ymd (Some batch_no_amount) = Some out →
       columns out = columns batch_no_amount
       ∧ ∀ r, r ∈ rows (clean_before_amounts read_ymd batch_no_amount) →
              r ∈ rows out).
Proof.
  split; [reflexivity |].
  apply (no_amount_column_no_enrichment read_decimal read_decimal read_ymd
           batch_no_amount). reflexivity.
Defined.

Lemma clean_enrich_do_not_mutate_witness :
  let w := world_with batch_scenario in
  heap w ⊆ heap (clean_data_prog read_decimal read_ymd (Some 0%nat) w).2
  ∧ heap w
    ⊆ heap (enrich_data_prog read_decimal read_decimal (Some 0%nat) w).2
  ∧ (∀ l, (clean_data_prog read_decimal read_ymd (Some 0%nat) w).1
          = Ok (Some l) → heap w !! l = None)
  ∧ (∀ l, (enrich_data_prog read_decimal read_decimal (Some 0%nat) w).1
          = Ok (Some l) → heap w !! l = None).
Proof.
  exact (clean_enrich_do_not_mutate read_decimal read_decimal read_ymd
           (Some 0%nat) (world_with batch_scenario)).
Defined.

(* ===================================================================== *)
(** * Further theorems at concrete inputs *)
(* ===================================================================== *)

Lemma categorize_amount_monotone_witness :
  fle (FNum (Qz 30)) (FNum (Qz 220)) = true
  ∧ (band_rank (categorize_amount read_decimal (VNum (FNum (Qz 30))))
     ≤ band_rank (categorize_amount read_decimal (VNum (FNum (Qz 220)))))%nat.
Proof.
  split; [reflexivity |].
  apply (categorize_amount_monotone read_decimal (FNum (Qz 30))
           (FNum (Qz 220))).
  reflexivity.
Defined.

Lemma categorize_amount_within_band_witness :
  fge (FNum (Qz 1000000)) fzero = true
  ∧ ∃ lo hi,
      (categorize_amount read_decimal (VNum (FNum (Qz 1000000))), (lo, hi))
      ∈ amount_categories_dict
      ∧ fle lo (FNum (Qz 1000000)) = true
      ∧ (fle (FNum (Qz 1000000)) hi = true
         ↔ fle (FNum (Qz 1000000)) max_band_amount = true).
Proof.
  split; [reflexivity |].
  apply (categorize_amount_within_band read_decimal (FNum (Qz 1000000))).
  reflexivity.
Defined.


Lemma enrich_data_keeps_records_witness :
  enrich_data read_decimal read_decimal (Some batch_two)
  = Ok (Some batch_enriched)
  ∧ length (rows batch_enriched) = length (rows batch_two)
  ∧ (∀ c, c ∉ enrichment_fields →
          column c batch_enriched = column c batch_two)
  ∧ (has_column transaction_amount batch_two = true →
     column transaction_amount batch_enriched
     = to_numeric read_decimal <$> column transaction_amount batch_two
     ∧ column amount_category batch_enriched
       = (λ v, VStr (categorize_amount read_decimal
                       (to_numeric read_decimal v)))
           <$> column transaction_amount batch_two).
Proof.
  assert (enrich_data read_decimal read_decimal (Some batch_two)
          = Ok (Some batch_enriched)) as H.
  { apply (bool_decide_unpack _). vm_compute. exact I. }
  exact (conj H (enrich_data_keeps_records read_decimal read_decimal
                   batch_two batch_enriched H)).
Defined.


Lemma main_raises_without_customer_id_witness :
  let w := initial_world empty_tables in
  ∃ w',
    main read_decimal read_decimal read_ymd show_float no_faults
      (Ok batch_no_customer) w = (Raise KeyError, w')
    ∧ committed w' = committed w
    ∧ trace w' = trace w ++ [EvConnect (fresh (dom (conns w)))].
Proof.
  eapply (main_raises_without_customer_id read_decimal read_decimal read_ymd
            show_float no_faults (Ok batch_no_customer)
            (initial_world empty_tables) batch_no_customer _);
    reflexivity.
Defined.


Lemma main_completes_when_conversion_fails_witness :
  let w := initial_world empty_tables in
  ∃ w',
    main read_decimal read_decimal read_ymd show_float no_faults
      (Ok batch_no_amount) w = (Ok (), w')
    ∧ committed w' = committed w
    ∧ trace w' = trace w ++ [EvConnect (fresh (dom (conns w)))]
    ∧ conns w'
      = <[fresh (dom (conns w)) := mkConnection true None]> (conns w)
    ∧ "Error inserting data" ∈ console w'
    ∧ last (console w') = Some "Process completed!".
Proof.
  eapply (main_completes_when_conversion_fails read_decimal read_decimal
            read_ymd show_float no_faults (Ok batch_no_amount)
            (initial_world empty_tables) batch_no_amount _ _ KeyError);
    reflexivity.
Defined.

Lemma save_to_database_returns_witness :
  (save_to_database read_decimal show_float (fault_at 3 DatabaseError) 0
     (world_with batch_enriched)).1 = Ok ().
Proof.
  apply (save_to_database_returns read_decimal show_float
           (fault_at 3 DatabaseError) 0 (world_with batch_enriched)).
  - intros n e. unfold fault_at.
    by destruct (bool_decide (n = 3)); intros [= <-].
  - intros n. unfold fault_at.
    destruct (bool_decide_reflect (n = 3)) as [-> |]; done.
Defined.

Lemma save_to_database_rolls_back_witness :
  let w := world_with batch_enriched in
  let w' := (save_to_database read_decimal show_float
               (fault_at 3 DatabaseError) 0 w).2 in
  let c := fresh (dom (conns w)) in
  (∃ evs, trace w' = trace w ++ evs ++ [EvRollback c; EvClose c]
          ∧ Forall (λ ev, is_rollback ev = false) evs)
  ∧ conns w' !! c = Some (mkConnection false None).
Proof.
  eapply proj2.
  apply (save_to_database_rolls_back read_decimal show_float
           (fault_at 3 DatabaseError) 0 (world_with batch_enriched)
           (save_body read_decimal show_float (fault_at 3 DatabaseError) 0
              (set_conn_var None (world_with batch_enriched))).2
           DatabaseError).
  - vm_compute. reflexivity.
  - reflexivity.
  - vm_compute. discriminate.
  - vm_compute. reflexivity.
Defined.

Lemma save_to_database_interrupted_witness :
  let w := world_with batch_enriched in
  let r := save_to_database read_decimal show_float
             (fault_at 3 KeyboardInterrupt) 0 w in
  r.1 = Raise KeyboardInterrupt
  ∧ (∃ n, fault_at 3 KeyboardInterrupt n = Some KeyboardInterrupt)
  ∧ ∃ evs, trace r.2 = trace w ++ evs
           ∧ Forall (λ ev, is_rollback ev = false) evs.
Proof.
  apply (save_to_database_interrupted read_decimal show_float
           (fault_at 3 KeyboardInterrupt) 0 (world_with batch_enriched)
           (save_body read_decimal show_float (fault_at 3 KeyboardInterrupt)
              0 (set_conn_var None (world_with batch_enriched))).2
           KeyboardInterrupt).
  - vm_compute. reflexivity.
  - reflexivity.
Defined.

Lemma save_to_database_facts_resolved_witness :
  let t' := committed (save_to_database read_decimal show_float no_faults 0
                         (world_with batch_enriched)).2 in
  ∃ facts,
    transactions t'
    = transactions (committed (world_with batch_enriched)) ++ facts
    ∧ Forall2 (fact_of_record show_float) (rows batch_enriched) facts
    ∧ Forall (fact_resolved t') facts.
Proof.
  apply (save_to_database_facts_resolved read_decimal show_float no_faults
           0 (world_with batch_enriched) batch_enriched batch_enriched).
  - reflexivity.
  - reflexivity.
  - vm_compute. reflexivity.
Defined.

Lemma main_writes_batch_witness :
  let w := initial_world empty_tables in
  ∃ d w',
    main read_decimal read_decimal read_ymd show_float no_faults
      (Ok batch_two) w = (Ok (), w')
    ∧ committed w' = run_statements (write_statements show_float d)
                       (committed w)
    ∧ trace w'
      = trace w
        ++ EvConnect (fresh (dom (conns w)))
           :: committed_write
                (fresh (dom (<[fresh (dom (conns w))
                               := mkConnection true None]> (conns w))))
                (write_statements show_float d)
    ∧ fresh (dom (<[fresh (dom (conns w)) := mkConnection true None]>
                    (conns w)))
      ≠ fresh (dom (conns w))
    ∧ last (console w') = Some "Process completed!".
Proof.
  eexists.
  eapply (main_writes_batch read_decimal read_decimal read_ymd show_float
            no_faults (Ok batch_two) (initial_world empty_tables)
            batch_two).
  - reflexivity.
  - reflexivity.
  - vm_compute. reflexivity.
  - vm_compute. reflexivity.
  - vm_compute. reflexivity.
Defined.

Lemma astype_after_enrich_witness :
  KeyError = KeyError
  ∧ ∃ c, c ∈ transaction_amount :: str_columns
         ∧ has_column c batch_no_amount = false.
Proof.
  apply (astype_after_enrich read_decimal read_decimal show_float
           batch_no_amount batch_no_amount KeyError);
    vm_compute; reflexivity.
Defined.

Lemma save_to_database_keeps_category_witness :
  ("P1", "books") ∈ product_data show_float batch_enriched
  ∧ ("P1", "toys")
    ∈ products (committed (save_to_database read_decimal show_float
                             no_faults 0 world_one_product).2)
  ∧ "toys" = "toys".
Proof.
  assert (("P1", "toys")
          ∈ products (committed (save_to_database read_decimal show_float
                                   no_faults 0 world_one_product).2)) as H
    by (apply (bool_decide_unpack _); by vm_compute).
  split; [apply (bool_decide_unpack _); by vm_compute |].
  split; [exact H |].
  apply (save_to_database_keeps_category read_decimal show_float no_faults
           0 world_one_product "P1" "toys" "toys"); [| | exact H].
  - repeat split; try constructor.
    + by intros ?%elem_of_nil.
    + constructor.
  - apply (bool_decide_unpack _). by vm_compute.
Defined.
